(** * django_s3_storage.storage: a shallow embedding of [S3Storage]

    The adapter of [django_s3_storage/storage.py] is embedded over an
    explicit world: the objects of the configured bucket, the requests
    sent to the object store so far, the failures the store is going to
    answer with, and the spooled temporary files of the process.  Python
    exceptions are results of a small state-and-exception monad. *)

From Stdlib Require Import ZArith List String Ascii Bool Lia.
From Stdlib Require Strings.Byte.
From stdpp Require Import base option list strings gmap.

Open Scope string_scope.
Open Scope list_scope.

(** ** Python strings *)

Module Py.

(** [s.startswith(p)] *)
Fixpoint startswith (s p : string) {struct p} : bool :=
  match p, s with
  | EmptyString, _ => true
  | String a p', String b s' => Ascii.eqb a b && startswith s' p'
  | String _ _, EmptyString => false
  end.

(** [s.endswith(p)]: [p] is [s] itself or a suffix of its tail. *)
Fixpoint endswith (s p : string) : bool :=
  if String.eqb s p then true
  else match s with
       | EmptyString => false
       | String _ s' => endswith s' p
       end.

(** [s[n:]] *)
Fixpoint slice_from (n : nat) (s : string) : string :=
  match n, s with
  | O, _ => s
  | S _, EmptyString => EmptyString
  | S n', String _ s' => slice_from n' s'
  end.

(** [s.split(sep)] for a separator of one character. *)
Fixpoint split (sep : ascii) (s : string) : list string :=
  match s with
  | EmptyString => [EmptyString]
  | String c s' =>
      if Ascii.eqb c sep then EmptyString :: split sep s'
      else match split sep s' with
           | h :: t => String c h :: t
           | [] => [String c EmptyString]
           end
  end.

(** [sep.join(parts)] *)
Fixpoint join (sep : string) (parts : list string) : string :=
  match parts with
  | [] => ""
  | [p] => p
  | p :: rest => p +:+ sep +:+ join sep rest
  end.

(** [s * n] *)
Fixpoint times (s : string) (n : nat) : string :=
  match n with
  | O => ""
  | S n' => s +:+ times s n'
  end.

(** [text[i:i+n]] pieces, as [read(n)] hands them out until the text
    is exhausted; [fuel] bounds the number of pieces. *)
Fixpoint pieces (fuel n : nat) (s : string) : list string :=
  match fuel with
  | O => []
  | S fuel' =>
      match s with
      | EmptyString => []
      | _ => substring 0 n s :: pieces fuel' n (slice_from n s)
      end
  end.

End Py.

(** ** [posixpath], as far as [listdir] uses it *)

Module posixpath.

Definition sep : string := "/".
Definition curdir : string := ".".
Definition pardir : string := "..".

Definition isabs (s : string) : bool := Py.startswith s sep.

(** [join(a, b)] *)
Definition join2 (a b : string) : string :=
  if Py.startswith b sep then b
  else if String.eqb a "" || Py.endswith a sep then a +:+ b
  else a +:+ sep +:+ b.

(** [join(a, *p)] *)
Definition join (a : string) (p : list string) : string :=
  fold_left join2 p a.

(** One turn of the loop of [normpath] over the components. *)
Definition normpath_step (initial_slashes : nat) (new_comps : list string)
    (comp : string) : list string :=
  if String.eqb comp "" || String.eqb comp curdir then new_comps
  else if negb (String.eqb comp pardir)
          || (Nat.eqb initial_slashes 0 && Nat.eqb (length new_comps) 0)
          || (match last new_comps with
              | Some l => String.eqb l pardir
              | None => false
              end)
       then (new_comps ++ [comp])%list
       else removelast new_comps.

(** The count [normpath] keeps in [initial_slashes]: POSIX allows one
    or two initial slashes and treats three or more as one. *)
Definition initial_slashes (path : string) : nat :=
  if Py.startswith path sep then
    if Py.startswith path (Py.times sep 2)
       && negb (Py.startswith path (Py.times sep 3))
    then 2%nat else 1%nat
  else 0%nat.

Definition normpath (path : string) : string :=
  if String.eqb path "" then curdir
  else
    let initial_slashes := initial_slashes path in
    let comps :=
      fold_left (normpath_step initial_slashes) (Py.split "/" path) [] in
    let path := Py.times sep initial_slashes +:+ Py.join sep comps in
    if String.eqb path "" then curdir else path.

(** [abspath(path)]; [cwd] is [os.getcwd()]. *)
Definition abspath (cwd path : string) : string :=
  normpath (if isabs path then path else join2 cwd path).

(** [len(commonprefix([l1, l2]))] on two lists of components. *)
Fixpoint commonprefix_len (l1 l2 : list string) : nat :=
  match l1, l2 with
  | x :: l1', y :: l2' =>
      if String.eqb x y then S (commonprefix_len l1' l2') else 0%nat
  | _, _ => 0%nat
  end.

Definition nonempty (x : string) : bool := negb (String.eqb x "").

(** [relpath(path, start)]; [None] stands for the [ValueError] raised
    on an empty [path]. *)
Definition relpath (cwd path start : string) : option string :=
  if String.eqb path "" then None
  else
    let start_list := List.filter nonempty (Py.split "/" (abspath cwd start)) in
    let path_list := List.filter nonempty (Py.split "/" (abspath cwd path)) in
    let i := commonprefix_len start_list path_list in
    let rel_list :=
      (List.repeat pardir (length start_list - i)
         ++ List.skipn i path_list)%list in
    match rel_list with
    | [] => Some curdir
    | a :: p => Some (join a p)
    end.

End posixpath.

(** ** Exceptions and the state-and-exception monad *)

(** A [botocore.exceptions.ClientError]: the error code and message of
    the response and the name of the operation that failed. *)
Record client_error := {
  Code : string;
  Message : string;
  operation_name : string;
}.

(** What the client raises besides a [ClientError]: the refusal of a
    parameter that breaks the service's rules, raised before anything
    is sent, and any other [BotoCoreError] (no connection, a timeout).
    Neither is a [ClientError]. *)
Inductive exn :=
| ClientError (ex : client_error)
| S3Error (msg : string)
| ValueError (msg : string)
| ParamValidationError (report : string)
| BotoCoreError (msg : string).

Inductive result (A : Type) :=
| Return (a : A)
| Raise (e : exn).
Arguments Return {A} a.
Arguments Raise {A} e.

(** ** Timestamps *)

(** A time zone: its name and its offset from UTC, in seconds, at a
    given instant. *)
Record tzinfo := { tzname : string; utcoffset : Z -> Z }.

Definition utc : tzinfo := {| tzname := "UTC"; utcoffset := fun _ => 0%Z |}.

(** A [datetime] is aware (an instant, in seconds since the epoch, and
    the zone it is shown in) or naive (wall-clock seconds, no zone). *)
Inductive datetime :=
| aware (instant : Z) (tz : tzinfo)
| naive (wall : Z).

(** [django.utils.timezone.make_naive(value, timezone)]:
    [value.astimezone(timezone).replace(tzinfo=None)]. *)
Definition make_naive (value : datetime) (timezone : tzinfo) : result datetime :=
  match value with
  | aware t _ => Return (naive (t + utcoffset timezone t))
  | naive _ => Raise (ValueError "make_naive() cannot be applied to a naive datetime")
  end.

(** ** The world *)

Record s3_object := {
  Body : list Byte.byte;
  ContentType : string;
  LastModified : Z;
}.

(** A [SpooledTemporaryFile]. *)
Record temp_file := {
  buffer : list Byte.byte;
  position : nat;
  closed : bool;
}.

(** The requests the client can send, with the parameters the adapter
    passes. *)
Inductive request :=
| GetObject (bucket key : string)
| PutObject (bucket key : string) (body : list Byte.byte) (content_type : string)
| HeadObject (bucket key : string)
| DeleteObject (bucket key : string)
| ListObjects (bucket : string) (prefix delimiter marker : option string).

(** How a request can fail: the store answers with an error, which the
    client raises as a [ClientError], or the client gives up on its
    own with another [BotoCoreError]. *)
Inductive failure :=
| Refused (ex : client_error)
| Broken (msg : string).

Definition raised (f : failure) : exn :=
  match f with
  | Refused ex => ClientError ex
  | Broken msg => BotoCoreError msg
  end.

Record world := {
  objects : gmap string s3_object;
  requests : list request;
  faults : list (option failure);
  clock : Z;
  temp_files : list temp_file;
}.

Definition M (A : Type) : Type := world -> result A * world.

Definition ret {A} (a : A) : M A := fun w => (Return a, w).

Definition raise {A} (e : exn) : M A := fun w => (Raise e, w).

Definition bind {A B} (m : M A) (k : A -> M B) : M B := fun w =>
  match m w with
  | (Return a, w') => k a w'
  | (Raise e, w') => (Raise e, w')
  end.

Definition lift {A} (r : result A) : M A := fun w => (r, w).

Notation "x <- m ;; k" := (bind m (fun x => k))
  (at level 100, m at next level, right associativity).
Notation "m ;;; k" := (bind m (fun _ => k))
  (at level 100, right associativity).

(** [for x in l: body x] *)
Fixpoint for_each {A} (l : list A) (body : A -> M unit) : M unit :=
  match l with
  | [] => ret tt
  | x :: l' => body x ;;; for_each l' body
  end.

(** ** Temporary files *)

Definition with_temp_files (t : list temp_file) (w : world) : world :=
  {| objects := objects w; requests := requests w; faults := faults w;
     clock := clock w; temp_files := t |}.

(** [_temporary_file()]: a fresh, empty, open spooled file; the handle
    is its index. *)
Definition _temporary_file : M nat := fun w =>
  (Return (length (temp_files w)),
   with_temp_files
     (temp_files w ++ [{| buffer := []; position := 0; closed := false |}]) w).

(** An operation on the file behind a handle; a closed file refuses it
    with [ValueError]. *)
Definition on_open_file {A} (h : nat) (op : temp_file -> A * temp_file) : M A :=
  fun w =>
    match temp_files w !! h with
    | Some f =>
        if closed f then (Raise (ValueError "I/O operation on closed file"), w)
        else let (a, f') := op f in
             (Return a, with_temp_files (<[h := f']> (temp_files w)) w)
    | None => (Raise (ValueError "I/O operation on closed file"), w)
    end.

Definition temp_write (h : nat) (data : list Byte.byte) : M unit :=
  on_open_file h (fun f =>
    (tt, {| buffer := take (position f) (buffer f) ++ data
                      ++ drop (position f + length data) (buffer f);
            position := position f + length data;
            closed := false |})).

Definition temp_seek (h : nat) (offset : nat) : M unit :=
  on_open_file h (fun f =>
    (tt, {| buffer := buffer f; position := offset; closed := false |})).

Definition temp_read (h : nat) : M (list Byte.byte) :=
  on_open_file h (fun f =>
    (drop (position f) (buffer f),
     {| buffer := buffer f; position := Nat.max (position f) (length (buffer f));
        closed := false |})).

(** [close()] may be repeated. *)
Definition temp_close (h : nat) : M unit := fun w =>
  match temp_files w !! h with
  | Some f =>
      (Return tt,
       with_temp_files
         (<[h := {| buffer := buffer f; position := position f; closed := true |}]>
            (temp_files w)) w)
  | None => (Return tt, w)
  end.

(** ** The object store behind the client

    The collaborator [boto3.client('s3')], for the one bucket the
    settings name.  Every request is logged and takes the next entry of
    [faults]: [Some f] makes the client raise what [f] stands for, a
    [ClientError] or another [BotoCoreError], without touching the
    bucket; [None] (or an exhausted list) lets the store answer.  A
    request for an object with an empty key is never sent.  The bucket
    name of the settings is taken to be one the client accepts. *)

Module S3.

Definition MaxKeys : nat := 1000.

Definition sent (r : request) (w : world) : world :=
  {| objects := objects w; requests := requests w ++ [r];
     faults := tail (faults w); clock := (clock w + 1)%Z;
     temp_files := temp_files w |}.

Definition with_objects (o : gmap string s3_object) (w : world) : world :=
  {| objects := o; requests := requests w; faults := faults w;
     clock := clock w; temp_files := temp_files w |}.

Definition call {A} (r : request) (serve : world -> result A * world) : M A :=
  fun w =>
    match head (faults w) with
    | Some (Some f) => (Raise (raised f), sent r w)
    | _ => serve (sent r w)
    end.

(** The client checks the parameters of a request against the rules of
    the service before it sends anything: a [Key] has at least one
    character.  The refusal is a [ParamValidationError]; no request is
    sent. *)
Definition invalid_key : exn :=
  ParamValidationError
    ("Parameter validation failed:"
     +:+ String "010"%char
           "Invalid length for parameter Key, value: 0, valid min length: 1").

Definition with_key {A} (Key : string) (send : M A) : M A :=
  if String.eqb Key "" then raise invalid_key else send.

Definition NoSuchKey (op : string) : client_error :=
  {| Code := "NoSuchKey"; Message := "The specified key does not exist.";
     operation_name := op |}.

Definition NotFound (op : string) : client_error :=
  {| Code := "404"; Message := "Not Found"; operation_name := op |}.

(** The answer of [head_object]. *)
Record metadata := {
  meta_ContentLength : nat;
  meta_LastModified : datetime;
  meta_ContentType : string;
}.

Definition get_object (Bucket Key : string) : M (list Byte.byte) :=
  with_key Key (call (GetObject Bucket Key) (fun w =>
    match objects w !! Key with
    | Some o => (Return (Body o), w)
    | None => (Raise (ClientError (NoSuchKey "GetObject")), w)
    end)).

Definition put_object (body : list Byte.byte) (Bucket Key content_type : string)
    : M unit :=
  with_key Key (call (PutObject Bucket Key body content_type) (fun w =>
    (Return tt,
     with_objects
       (<[Key := {| Body := body; ContentType := content_type;
                    LastModified := clock w |}]> (objects w)) w))).

Definition head_object (Bucket Key : string) : M metadata :=
  with_key Key (call (HeadObject Bucket Key) (fun w =>
    match objects w !! Key with
    | Some o =>
        (Return {| meta_ContentLength := length (Body o);
                   meta_LastModified := aware (LastModified o) utc;
                   meta_ContentType := ContentType o |}, w)
    | None => (Raise (ClientError (NotFound "HeadObject")), w)
    end)).

Definition delete_object (Bucket Key : string) : M unit :=
  with_key Key (call (DeleteObject Bucket Key) (fun w =>
    (Return tt, with_objects (delete Key (objects w)) w))).

(** *** Listing *)

Inductive entry :=
| Content (Key : string)
| CommonPrefix (Prefix : string).

Definition entry_name (e : entry) : string :=
  match e with Content k => k | CommonPrefix p => p end.

(** One page of a listing; a key of the response is present only when
    it has entries. *)
Record page := {
  Contents : option (list string);
  CommonPrefixes : option (list string);
  IsTruncated : bool;
}.

(** Keys in the byte order the store lists them in. *)
Fixpoint insert_key (k : string) (l : list string) : list string :=
  match l with
  | [] => [k]
  | x :: l' => if String.leb k x then k :: l else x :: insert_key k l'
  end.

Definition sort_keys (l : list string) : list string :=
  fold_right insert_key [] l.

(** A key under [prefix] whose rest contains the delimiter is rolled
    up into the common prefix that ends at the first delimiter. *)
Definition classify (prefix : string) (delimiter : option string) (key : string)
    : entry :=
  match delimiter with
  | None => Content key
  | Some d =>
      let rest := Py.slice_from (String.length prefix) key in
      match String.index 0 d rest with
      | Some i =>
          CommonPrefix (prefix +:+ substring 0 (i + String.length d) rest)
      | None => Content key
      end
  end.

(** Keys rolled up into the same common prefix are listed once. *)
Definition add_entry (e : entry) (l : list entry) : list entry :=
  match e, l with
  | CommonPrefix p, CommonPrefix q :: _ => if String.eqb p q then l else e :: l
  | _, _ => e :: l
  end.

Definition listing (prefix : string) (delimiter : option string)
    (o : gmap string s3_object) : list entry :=
  fold_right add_entry []
    (map (classify prefix delimiter)
       (List.filter (fun k => Py.startswith k prefix)
          (sort_keys (map fst (map_to_list o))))).

Definition contents_of (l : list entry) : list string :=
  omap (fun e => match e with Content k => Some k | _ => None end) l.

Definition common_prefixes_of (l : list entry) : list string :=
  omap (fun e => match e with CommonPrefix p => Some p | _ => None end) l.

Definition present (l : list string) : option (list string) :=
  match l with [] => None | _ => Some l end.

Definition mk_page (l : list entry) (truncated : bool) : page :=
  {| Contents := present (contents_of l);
     CommonPrefixes := present (common_prefixes_of l);
     IsTruncated := truncated |}.

(** The listing cut into pages of at most [n] entries; an empty
    listing is one empty page. *)
Fixpoint chunks (fuel n : nat) (l : list entry) : list (list entry) :=
  match fuel with
  | O => [l]
  | S fuel' =>
      if Nat.leb (length l) n then [l]
      else take n l :: chunks fuel' n (drop n l)
  end.

Definition pages_of (prefix : string) (delimiter : option string)
    (o : gmap string s3_object) : list (list entry) :=
  let l := listing prefix delimiter o in
  chunks (length l) MaxKeys l.

(** [list_objects(Bucket=..., Prefix=..., Delimiter=...)]: the first
    page. *)
Definition list_objects (Bucket : string) (Prefix Delimiter : option string)
    : M page :=
  call (ListObjects Bucket Prefix Delimiter None) (fun w =>
    let l := listing (default "" Prefix) Delimiter (objects w) in
    (Return (mk_page (take MaxKeys l) (Nat.ltb MaxKeys (length l))), w)).

(** One step of [get_paginator("list_objects").paginate(...)]: the
    request for the page that follows [marker]. *)
Definition next_page (Bucket : string) (Prefix Delimiter marker : option string)
    (this : list entry) (more : bool) : M page :=
  call (ListObjects Bucket Prefix Delimiter marker) (fun w =>
    (Return (mk_page this more), w)).

Definition last_name (l : list entry) : option string :=
  entry_name <$> last l.

End S3.

(** ** Django files handed to [save] *)

Inductive stream :=
| BytesIO (data : list Byte.byte)
| TextIO (text : string).

(** A [django.core.files.base.File]: the underlying [file] and the
    position it has been read to. *)
Record File := { file : stream; tell : nat }.

Definition File_seek (f : File) (offset : nat) : File :=
  {| file := file f; tell := offset |}.

Definition DEFAULT_CHUNK_SIZE : nat := 64 * 2 ^ 10.

(** [File.chunks()] of a text file: rewind, then [read(chunk_size)]
    until nothing is left. *)
Definition text_chunks (text : string) : list string :=
  Py.pieces (String.length text) DEFAULT_CHUNK_SIZE text.

(** What [_save] reads the body from: the caller's file, or the
    temporary file the text was converted into. *)
Inductive source :=
| Caller (data : list Byte.byte) (pos : nat)
| Temp (h : nat).

(** The [S3File] returned by [_open]: the spooled file and the name. *)
Record S3File := { S3File_file : nat; S3File_name : string }.

Record Settings := {
  AWS_S3_BUCKET_NAME : string;
  USE_TZ : bool;
  TIME_ZONE : tzinfo;
}.

(** ** A concrete deployment, for the examples *)

Module Demo.

(** A zone one hour ahead of UTC all year. *)
Definition lagos : tzinfo :=
  {| tzname := "Africa/Lagos"; utcoffset := fun _ => 3600%Z |}.

Definition settings : Settings :=
  {| AWS_S3_BUCKET_NAME := "media"; USE_TZ := false; TIME_ZONE := lagos |}.


Definition cwd : string := "/srv/app".

Definition guess_type (name : string) : option string :=
  if Py.endswith name ".txt" then Some "text/plain"
  else if Py.endswith name ".json" then Some "application/json"
  else None.

Definition repr (s : string) : string := "'" +:+ s +:+ "'".

Definition force_text (ex : client_error) : string :=
  "An error occurred (" +:+ Code ex +:+ ") when calling the "
  +:+ operation_name ex +:+ " operation: " +:+ Message ex.

Definition force_bytes (s : string) : list Byte.byte :=
  map byte_of_ascii (list_ascii_of_string s).

Definition AccessDenied : client_error :=
  {| Code := "AccessDenied"; Message := "Access Denied";
     operation_name := "HeadObject" |}.

Definition ServiceUnavailable (op : string) : client_error :=
  {| Code := "ServiceUnavailable"; Message := "Please reduce your request rate.";
     operation_name := op |}.

(** A world with the given bucket and upcoming failures, nothing sent
    and no temporary file yet. *)
Definition world_of (o : gmap string s3_object)
    (f : list (option failure)) : world :=
  {| objects := o; requests := []; faults := f; clock := 1700000000;
     temp_files := [] |}.

Definition obj (body : string) : s3_object :=
  {| Body := force_bytes body; ContentType := "text/plain";
     LastModified := 1600000000 |}.

(** The bucket with exactly the keys [a.txt] and [b/c.txt]. *)
Definition two_keys : gmap string s3_object :=
  <["a.txt" := obj "alpha"]> (<["b/c.txt" := obj "gamma"]> ∅).

(** The worlds of the examples: an empty bucket and the bucket of two
    keys with a store that answers, and the bucket of two keys with a
    store whose next answer is a failure. *)
Definition empty : world := world_of ∅ [].
Definition stocked : world := world_of two_keys [].
Definition failing (ex : client_error) : world :=
  world_of two_keys [Some (Refused ex)].
Definition empty_failing (ex : client_error) : world :=
  world_of ∅ [Some (Refused ex)].

(** The bucket of two keys behind a connection that is down. *)
Definition unreachable : world :=
  world_of two_keys
    [Some (Broken "Could not connect to the endpoint URL"); None].

(** A text file and a file of two bytes read to position 1. *)
Definition hello : File := {| file := TextIO "hello"; tell := 0 |}.
Definition two_bytes : File :=
  {| file := BytesIO [Byte.x01; Byte.x02]; tell := 1 |}.

(** The bucket of two keys with a placeholder object for the directory
    [b], and a store that answers. *)
Definition with_placeholder : world :=
  world_of (<["b/" := obj ""]> two_keys) [].

(** The stocked world with one temporary file, read to position 3 and
    open or closed. *)
Definition with_file (is_closed : bool) : world :=
  {| objects := two_keys; requests := []; faults := []; clock := 1700000000;
     temp_files := [{| buffer := force_bytes "stale"; position := 3;
                       closed := is_closed |}] |}.

(** The file of handle 0 and name [a.txt]. *)
Definition handle : S3File := {| S3File_file := 0; S3File_name := "a.txt" |}.

End Demo.

(** ** The adapter *)

Section S3Storage.

Set Default Proof Using "Type".

Variable settings : Settings.
(** [os.getcwd()] *)
Variable cwd : string.
(** [mimetypes.guess_type(name, strict=False)[0]] *)
Variable guess_type : string -> option string.
(** [repr(name)] and [force_text(ex)] *)
Variable repr : string -> string.
Variable force_text : client_error -> string.
(** [force_bytes(chunk)] *)
Variable force_bytes : string -> list Byte.byte.

Definition _wrap_errors {A} (func : string -> M A) (name : string) : M A :=
  fun w =>
    match func name w with
    | (Raise (ClientError ex), w') =>
        (Raise (S3Error ("S3Storage error at " +:+ repr name +:+ ": "
                         +:+ force_text ex)), w')
    | r => r
    end.

Definition _get_key_name (name : string) : string :=
  if Py.startswith name "/" then Py.slice_from 1 name else name.

(** [_object_params(name)]: the pair [(Bucket, Key)]. *)
Definition _object_params (name : string) : string * string :=
  (AWS_S3_BUCKET_NAME settings, _get_key_name name).

Definition _open (name mode : string) : M S3File :=
  _wrap_errors (fun name =>
    if negb (String.eqb mode "rb") then
      raise (ValueError "S3 files can only be opened in read-only mode")
    else
      let '(Bucket, Key) := _object_params name in
      obj <- S3.get_object Bucket Key ;;
      content <- _temporary_file ;;
      temp_write content obj ;;;
      temp_seek content 0 ;;;
      ret {| S3File_file := content; S3File_name := name |}) name.

Definition read_source (content : source) : M (list Byte.byte) :=
  match content with
  | Caller data pos => ret (drop pos data)
  | Temp h => temp_read h
  end.

Definition _save (name : string) (content : File) : M string :=
  _wrap_errors (fun name =>
    let '(Bucket, Key) := _object_params name in
    let temp_files : list nat := [] in
    let content := File_seek content 0 in
    converted <-
      match file content with
      | TextIO text =>
          temp_file <- _temporary_file ;;
          let temp_files := (temp_files ++ [temp_file])%list in
          for_each (text_chunks text)
            (fun chunk => temp_write temp_file (force_bytes chunk)) ;;;
          temp_seek temp_file 0 ;;;
          ret (Temp temp_file, temp_files)
      | BytesIO data => ret (Caller data (tell content), temp_files)
      end ;;
    let '(content, temp_files) := converted in
    let content_type :=
      match guess_type name with
      | Some t => if String.eqb t "" then "application/octet-stream" else t
      | None => "application/octet-stream"
      end in
    body <- read_source content ;;
    S3.put_object body Bucket Key content_type ;;;
    for_each temp_files temp_close ;;;
    ret name) name.

Definition meta (name : string) : M S3.metadata :=
  _wrap_errors (fun name =>
    let '(Bucket, Key) := _object_params name in
    S3.head_object Bucket Key) name.

Definition delete (name : string) : M unit :=
  _wrap_errors (fun name =>
    let '(Bucket, Key) := _object_params name in
    S3.delete_object Bucket Key) name.

(** [exists(name)]; [fuel] bounds the depth of the calls, and [None]
    is a run that needs more. *)
Fixpoint exists_ (fuel : nat) (name : string) (w : world)
    : option (result bool * world) :=
  match fuel with
  | O => None
  | S fuel' =>
      if Py.endswith name "/" then
        Some ((results <- S3.list_objects (AWS_S3_BUCKET_NAME settings) None None ;;
               ret (bool_decide (is_Some (S3.Contents results)))) w)
      else
        match meta name w with
        | (Raise (S3Error _), w') => exists_ fuel' (name +:+ "/") w'
        | (Raise e, w') => Some (Raise e, w')
        | (Return _, w') => Some (Return true, w')
        end
  end.

(** [posixpath.relpath(name, path)] *)
Definition relative (path name : string) : M string :=
  match posixpath.relpath cwd name path with
  | Some r => ret r
  | None => raise (ValueError "no path specified")
  end.

(** [for entry in entries: out.append(posixpath.relpath(entry, path))] *)
Fixpoint append_relative (path : string) (entries out : list string)
    : M (list string) :=
  match entries with
  | [] => ret out
  | entry :: rest =>
      r <- relative path entry ;;
      append_relative path rest (out ++ [r])
  end.

(** The body of [for page in pages] in [listdir]. *)
Definition listdir_page (path : string) (p : S3.page)
    (acc : list string * list string) : M (list string * list string) :=
  let '(dirs, files) := acc in
  files <- append_relative path (default [] (S3.Contents p)) files ;;
  dirs <- append_relative path (default [] (S3.CommonPrefixes p)) dirs ;;
  ret (dirs, files).

(** [for page in pages], the pages being fetched one by one. *)
Fixpoint listdir_pages (path : string) (marker : option string)
    (pages : list (list S3.entry)) (acc : list string * list string)
    : M (list string * list string) :=
  match pages with
  | [] => ret acc
  | this :: rest =>
      p <- S3.next_page (AWS_S3_BUCKET_NAME settings) (Some path) (Some "/")
             marker this (negb (bool_decide (rest = []))) ;;
      acc' <- listdir_page path p acc ;;
      listdir_pages path (S3.last_name this) rest acc'
  end.

Definition listdir (path : string) : M (list string * list string) :=
  fun w =>
    let path := _get_key_name path in
    let path := if String.eqb path "." then "" else path +:+ "/" in
    listdir_pages path None (S3.pages_of path (Some "/") (objects w)) ([], []) w.

Definition size (name : string) : M nat :=
  m <- meta name ;; ret (S3.meta_ContentLength m).

Definition modified_time (name : string) : M datetime :=
  m <- meta name ;; lift (make_naive (S3.meta_LastModified m) utc).

Definition created_time := modified_time.
Definition accessed_time := modified_time.

Definition get_modified_time (name : string) : M datetime :=
  m <- meta name ;;
  let timestamp := S3.meta_LastModified m in
  if USE_TZ settings then ret timestamp
  else lift (make_naive timestamp (TIME_ZONE settings)).

Definition get_created_time := get_modified_time.
Definition get_accessed_time := get_modified_time.

(** ** [S3File] *)

(** [File.closed]: the file behind the handle is closed (or gone). *)
Definition temp_closed (h : nat) (w : world) : bool :=
  match temp_files w !! h with
  | Some f => closed f
  | None => true
  end.

(** [S3File.open(mode)]: a closed file is fetched again from the
    storage under its name, [Storage.open] being [_open]; then
    [File.open] of Django rewinds the file, which is not closed. *)
Definition S3File_open (f : S3File) (mode : string) : M S3File :=
  fun w =>
    if temp_closed (S3File_file f) w then
      (reopened <- _open (S3File_name f) mode ;;
       let f' := {| S3File_file := S3File_file reopened;
                    S3File_name := S3File_name f |} in
       temp_seek (S3File_file f') 0 ;;;
       ret f') w
    else
      (temp_seek (S3File_file f) 0 ;;; ret f) w.

(** ** Closed forms of the further statements *)

(** The message of the [S3Error] that [_wrap_errors] raises. *)
Definition error_message (name : string) (ex : client_error) : string :=
  "S3Storage error at " +:+ repr name +:+ ": " +:+ force_text ex.

(** The bytes [_save] uploads for a file. *)
Definition payload (content : File) : list Byte.byte :=
  match file content with
  | BytesIO data => data
  | TextIO text => concat (map force_bytes (text_chunks text))
  end.

(** A computation that leaves the bucket as it finds it. *)
Definition read_only {A} (m : M A) : Prop :=
  forall w : world, objects (snd (m w)) = objects w.

(** ** Closed forms the statements refer to *)

(** The store answers the next [n] requests. *)
Definition no_fault (n : nat) (f : list (option failure)) : bool :=
  forallb (fun x => match x with Some _ => false | None => true end) (take n f).

(** The content type [_save] sends. *)
Definition content_type_of (name : string) : string :=
  match guess_type name with
  | Some t => if String.eqb t "" then "application/octet-stream" else t
  | None => "application/octet-stream"
  end.

(** A string without the separator, and a path component that
    [normpath] keeps as it is. *)
Fixpoint slashfree (s : string) : bool :=
  match s with
  | EmptyString => true
  | String c s' => negb (Ascii.eqb c "/") && slashfree s'
  end.

Definition plain (x : string) : bool :=
  slashfree x && negb (String.eqb x "") && negb (String.eqb x ".")
  && negb (String.eqb x "..").

(** What the components [normpath] collects are. *)
Definition clean (x : string) : Prop :=
  slashfree x = true /\ x <> "".

(** The prefix [listdir] lists under. *)
Definition listdir_prefix (path : string) : string :=
  let key := _get_key_name path in
  if String.eqb key "." then "" else key +:+ "/".

(** All of [names] made relative to [prefix], when [relpath] accepts
    each of them. *)
Fixpoint relativize (prefix : string) (names : list string)
    : option (list string) :=
  match names with
  | [] => Some []
  | n :: rest =>
      match posixpath.relpath cwd n prefix, relativize prefix rest with
      | Some r, Some rs => Some (r :: rs)
      | _, _ => None
      end
  end.

(** The requests of a paginated listing under [prefix]: one for each
    page, the marker being the last name of the page before. *)
Fixpoint page_requests (prefix : string) (marker : option string)
    (pages : list (list S3.entry)) : list request :=
  match pages with
  | [] => []
  | this :: rest =>
      ListObjects (AWS_S3_BUCKET_NAME settings) (Some prefix) (Some "/") marker
      :: page_requests prefix (S3.last_name this) rest
  end.

Definition sent_all (rs : list request) (w : world) : world :=
  fold_left (fun w r => S3.sent r w) rs w.

(** What the directory branch of [exists] amounts to: one unscoped
    listing request, answered by whether the bucket holds anything;
    the name probed does not occur. *)
Definition directory_probe (w : world) : result bool * world :=
  let w' := S3.sent (ListObjects (AWS_S3_BUCKET_NAME settings) None None None) w in
  match head (faults w) with
  | Some (Some f) => (Raise (raised f), w')
  | _ => (Return (bool_decide (objects w ≠ ∅)), w')
  end.



(** ** Facts about Python strings *)

Lemma endswith_refl (s : string) : Py.endswith s s = true.
Proof. destruct s; simpl; [reflexivity | now rewrite Ascii.eqb_refl, String.eqb_refl]. Qed.

Lemma endswith_cons (c : ascii) (s p : string) :
  Py.endswith (String c s) p =
  if String.eqb (String c s) p then true else Py.endswith s p.
Proof. reflexivity. Qed.

Lemma endswith_app (s p : string) : Py.endswith (s +:+ p) p = true.
Proof.
  induction s as [|c s IH].
  - apply endswith_refl.
  - change (String c s +:+ p) with (String c (s +:+ p)).
    rewrite endswith_cons, IH. now destruct (String.eqb _ _).
Qed.

Lemma slice_from_length (n : nat) (s : string) :
  String.length (Py.slice_from n s) = String.length s - n.
Proof.
  revert s; induction n as [|n IH]; intros [|c s]; simpl; try reflexivity.
  apply IH.
Qed.

Lemma substring_slice_from (n : nat) (s : string) :
  substring 0 n s +:+ Py.slice_from n s = s.
Proof.
  revert s. induction n as [|n IH]; intros [|c s]; try reflexivity.
  change (String c (substring 0 n s +:+ Py.slice_from n s) = String c s).
  now rewrite IH.
Qed.

(** The pieces [read(n)] hands out make up the text: the bound on
    their number is never reached. *)
Lemma pieces_lossless (n fuel : nat) (s : string) :
  0 < n -> String.length s <= fuel ->
  fold_right String.append "" (Py.pieces fuel n s) = s.
Proof.
  intros Hn. revert s. induction fuel as [|fuel IH]; intros s Hs.
  - destruct s; [reflexivity | simpl in Hs; lia].
  - destruct s as [|c s]; [reflexivity |].
    cbn [Py.pieces fold_right]. rewrite IH, substring_slice_from; [reflexivity |].
    rewrite slice_from_length. simpl in *. lia.
Qed.

Lemma text_chunks_lossless (text : string) :
  fold_right String.append "" (text_chunks text) = text.
Proof.
  apply pieces_lossless; [| reflexivity].
  unfold DEFAULT_CHUNK_SIZE. apply Nat.mul_pos_pos; [lia |].
  apply Nat.neq_0_lt_0, Nat.pow_nonzero. discriminate.
Qed.

Lemma startswith_cons (a b : ascii) (s p : string) :
  Py.startswith (String b s) (String a p) = Ascii.eqb a b && Py.startswith s p.
Proof. reflexivity. Qed.

Lemma startswith_empty (s : string) : Py.startswith s "" = true.
Proof. now destruct s. Qed.

Lemma startswith_sep_inv (x : string) :
  Py.startswith x "/" = true -> exists s, x = String "/" s.
Proof.
  destruct x as [|c s]; [discriminate |].
  rewrite startswith_cons.
  destruct (Ascii.eqb_spec "/" c) as [<- | ]; [eauto | discriminate].
Qed.

Lemma get_key_name_sep (s : string) : _get_key_name (String "/" s) = s.
Proof. reflexivity. Qed.

Lemma get_key_name_other (x : string) :
  Py.startswith x "/" = false -> _get_key_name x = x.
Proof. unfold _get_key_name. now intros ->. Qed.

(** C7, amended: [_get_key_name] removes one leading separator, leaves
    a name that does not start with one as it is, and applying it twice
    gives the same as applying it once exactly for the names that do
    not start with two separators. *)
Theorem get_key_name_strips_one_separator :
  (forall s : string, _get_key_name ("/" +:+ s) = s) /\
  (forall x : string, Py.startswith x "/" = false -> _get_key_name x = x) /\
  (forall x : string,
     _get_key_name (_get_key_name x) = _get_key_name x
     <-> Py.startswith x "//" = false).
Proof.
  split; [exact get_key_name_sep |].
  split; [exact get_key_name_other |].
  intros x. destruct (Py.startswith x "/") eqn:Hx.
  - destruct (startswith_sep_inv x Hx) as [s ->].
    rewrite get_key_name_sep.
    destruct (Py.startswith s "/") eqn:Hs.
    + destruct (startswith_sep_inv s Hs) as [t ->].
      rewrite get_key_name_sep. split; [| discriminate].
      intros E. apply (f_equal String.length) in E. simpl in E. lia.
    + rewrite (get_key_name_other s Hs). split; [| reflexivity].
      intros _. rewrite startswith_cons, Ascii.eqb_refl. exact Hs.
  - rewrite (get_key_name_other x Hx), (get_key_name_other x Hx).
    split; [| reflexivity]. intros _.
    destruct x as [|c s]; [reflexivity |]. rewrite startswith_cons in *.
    rewrite startswith_empty, andb_true_r in Hx. now rewrite Hx.
Qed.

(** ** Facts about the object store *)

Lemma filter_startswith_empty (l : list string) :
  List.filter (fun k => Py.startswith k "") l = l.
Proof.
  induction l as [|k l IH]; [reflexivity |].
  cbn [List.filter]. now rewrite startswith_empty, IH.
Qed.

Lemma fold_add_entry_contents (l : list string) :
  fold_right S3.add_entry [] (map S3.Content l) = map S3.Content l.
Proof. induction l as [|k l IH]; simpl; [reflexivity | now rewrite IH]. Qed.

Lemma contents_of_map_Content (l : list string) :
  S3.contents_of (map S3.Content l) = l.
Proof.
  unfold S3.contents_of. induction l as [|k l IH]; [reflexivity |].
  cbn. f_equal. exact IH.
Qed.

Lemma insert_key_not_nil (k : string) (l : list string) : S3.insert_key k l <> [].
Proof. destruct l as [|x l]; simpl; [discriminate |]. now destruct (String.leb k x). Qed.

Lemma sort_keys_nil (l : list string) : S3.sort_keys l = [] <-> l = [].
Proof.
  destruct l as [|k l]; simpl; [split; intros _; reflexivity |].
  split; [| discriminate]. intros H. now apply insert_key_not_nil in H.
Qed.

Lemma listing_unscoped (o : gmap string s3_object) :
  S3.listing "" None o = map S3.Content (S3.sort_keys (map fst (map_to_list o))).
Proof.
  unfold S3.listing. rewrite filter_startswith_empty.
  change (map (S3.classify "" None)) with (map S3.Content).
  apply fold_add_entry_contents.
Qed.

Lemma listing_unscoped_nil (o : gmap string s3_object) :
  S3.listing "" None o = [] <-> o = ∅.
Proof.
  rewrite listing_unscoped. split.
  - intros H. apply map_eq_nil in H. apply (proj1 (sort_keys_nil _)) in H.
    apply map_eq_nil in H. now apply map_to_list_empty_iff.
  - intros ->. now rewrite map_to_list_empty.
Qed.

Lemma first_page_has_contents (o : gmap string s3_object) (t : bool) :
  is_Some (S3.Contents (S3.mk_page (take S3.MaxKeys (S3.listing "" None o)) t))
  <-> o ≠ ∅.
Proof.
  rewrite <- listing_unscoped_nil, listing_unscoped.
  destruct (S3.sort_keys (map fst (map_to_list o))) as [|k l]; simpl.
  - split; [intros [x Hx]; discriminate | congruence].
  - split; [discriminate | eauto].
Qed.

(** ** The adapter's operations *)

Lemma exists_directory (fuel : nat) (name : string) (w : world) :
  Py.endswith name "/" = true ->
  exists_ (S fuel) name w = Some (directory_probe w).
Proof.
  intros H. simpl. rewrite H. f_equal.
  unfold directory_probe, bind, S3.list_objects, S3.call, ret.
  destruct (head (faults w)) as [[ex|]|]; try reflexivity;
    (f_equal; f_equal; apply bool_decide_ext, first_page_has_contents).
Qed.

(** A wrapped operation never lets a [ClientError] through. *)
Lemma wrap_errors_no_client_error {A} (func : string -> M A) (name : string)
    (w w' : world) (ex : client_error) :
  _wrap_errors func name w <> (Raise (ClientError ex), w').
Proof.
  unfold _wrap_errors. destruct (func name w) as [[a|[e|m|m|m|m]] w1]; congruence.
Qed.

(** A request for an object is refused when the key is empty, and
    goes to the store otherwise. *)
Lemma with_key_empty {A} (send : M A) (w : world) :
  S3.with_key "" send w = (Raise S3.invalid_key, w).
Proof. reflexivity. Qed.

Lemma with_key_valid {A} (Key : string) (send : M A) :
  Key <> "" -> S3.with_key Key send = send.
Proof. intros H. unfold S3.with_key. apply String.eqb_neq in H. now rewrite H. Qed.


Lemma exists_unfold (fuel : nat) (name : string) (w : world) :
  exists_ (S fuel) name w =
  if Py.endswith name "/" then
    Some ((results <- S3.list_objects (AWS_S3_BUCKET_NAME settings) None None ;;
           ret (bool_decide (is_Some (S3.Contents results)))) w)
  else
    match meta name w with
    | (Raise (S3Error _), w') => exists_ fuel (name +:+ "/") w'
    | (Raise e, w') => Some (Raise e, w')
    | (Return _, w') => Some (Return true, w')
    end.
Proof. reflexivity. Qed.

Lemma exists_file (fuel : nat) (name : string) (w : world) :
  Py.endswith name "/" = false ->
  exists_ (S (S fuel)) name w =
  match meta name w with
  | (Return _, w') => Some (Return true, w')
  | (Raise (S3Error _), w') => Some (directory_probe w')
  | (Raise e, w') => Some (Raise e, w')
  end.
Proof.
  intros H. rewrite exists_unfold, H.
  destruct (meta name w) as [[m|[ex|msg|msg|msg|msg]] w'] eqn:E; try reflexivity.
  apply exists_directory, endswith_app.
Qed.

Lemma directory_probe_requests (w : world) :
  requests (snd (directory_probe w)) =
  requests w ++ [ListObjects (AWS_S3_BUCKET_NAME settings) None None None].
Proof. unfold directory_probe. now destruct (head (faults w)) as [[f|]|]. Qed.

Lemma directory_probe_answer (w w' : world) (b : bool) :
  directory_probe w = (Return b, w') -> (b = true <-> objects w ≠ ∅).
Proof.
  unfold directory_probe.
  destruct (head (faults w)) as [[[ex|msg]|]|]; intros [= <- _];
    apply bool_decide_eq_true.
Qed.

(** C2: for a name that ends with the separator, [exists] sends one
    listing request with neither prefix nor delimiter, and answers
    true exactly when the bucket holds at least one object; the name
    does not matter, so all such names get the same answer in the
    same world. *)
Theorem exists_directory_probes_whole_bucket
    (fuel : nat) (name : string) (w : world) :
  Py.endswith name "/" = true ->
  exists_ (S fuel) name w = Some (directory_probe w)
  /\ requests (snd (directory_probe w)) =
     requests w ++ [ListObjects (AWS_S3_BUCKET_NAME settings) None None None]
  /\ (forall b w', directory_probe w = (Return b, w') ->
                   (b = true <-> objects w ≠ ∅))
  /\ (forall fuel' name', Py.endswith name' "/" = true ->
                          exists_ (S fuel') name' w = exists_ (S fuel) name w).
Proof.
  intros H. split; [now apply exists_directory |].
  split; [apply directory_probe_requests |].
  split; [intros b w'; apply directory_probe_answer |].
  intros fuel' name' H'. now rewrite !exists_directory.
Qed.

(** The store's error answers become [S3Error]s of [meta], whatever
    their code. *)
Lemma meta_refused_any (name : string) (w : world)
    (ex : client_error) (f : list (option failure)) :
  _get_key_name name <> "" ->
  faults w = Some (Refused ex) :: f ->
  meta name w =
  (Raise (S3Error ("S3Storage error at " +:+ repr name +:+ ": "
                   +:+ force_text ex)),
   S3.sent (HeadObject (AWS_S3_BUCKET_NAME settings) (_get_key_name name)) w).
Proof.
  intros Hk Hf. unfold meta, _wrap_errors, _object_params, S3.head_object.
  rewrite (with_key_valid _ _ Hk). unfold S3.call. now rewrite Hf.
Qed.

(** C3, amended: for a name that does not end with the separator,
    [exists] first calls [meta]; when [meta] succeeds the answer is
    true; when [meta] fails with an [S3Error], the answer is that of
    the directory probe for the name with the separator appended, and
    every error answer of the store, not-found or not, is such an
    [S3Error]: none of them reaches the caller.  Only an exception of
    [meta] that is no [S3Error], which the client raises on its own,
    propagates, as the [ParamValidationError] for the empty name
    does. *)
Theorem exists_file_probe (fuel : nat) (name : string) (w : world) :
  Py.endswith name "/" = false ->
  exists_ (S (S fuel)) name w =
    match meta name w with
    | (Return _, w') => Some (Return true, w')
    | (Raise (S3Error _), w') => exists_ (S fuel) (name +:+ "/") w'
    | (Raise e, w') => Some (Raise e, w')
    end
  /\ (forall msg w', meta name w = (Raise (S3Error msg), w') ->
        exists_ (S (S fuel)) name w = Some (directory_probe w'))
  /\ (forall ex f, _get_key_name name <> "" ->
        faults w = Some (Refused ex) :: f ->
        exists msg w', meta name w = (Raise (S3Error msg), w'))
  /\ (_get_key_name name = "" ->
      exists_ (S (S fuel)) name w = Some (Raise S3.invalid_key, w)).
Proof.
  intros H. split; [| split; [| split]].
  - rewrite (exists_file _ _ _ H).
    destruct (meta name w) as [[m|[ex|msg|msg|msg|msg]] w']; try reflexivity.
    symmetry. apply exists_directory, endswith_app.
  - intros msg w' E. now rewrite (exists_file _ _ _ H), E.
  - intros ex f Hk Hf. rewrite (meta_refused_any name w ex f Hk Hf). eauto.
  - intros Hk. rewrite (exists_file _ _ _ H).
    assert (E : meta name w = (Raise S3.invalid_key, w)).
    { unfold meta, _wrap_errors, _object_params, S3.head_object.
      now rewrite Hk, with_key_empty. }
    now rewrite E.
Qed.

(** C10: [exists] returns for every name and every world, and two
    nested calls are always enough: more fuel never changes the
    result, a name ending with the separator needs one call, and the
    name of the inner call ends with the separator. *)
Theorem exists_terminates_depth_one (name : string) (w : world) :
  (exists r, exists_ 2 name w = Some r)
  /\ (forall fuel, exists_ (2 + fuel) name w = exists_ 2 name w)
  /\ Py.endswith (name +:+ "/") "/" = true
  /\ (forall fuel w', exists_ (1 + fuel) (name +:+ "/") w'
                      = exists_ 1 (name +:+ "/") w').
Proof.
  assert (Hrec : forall fuel w', exists_ (1 + fuel) (name +:+ "/") w'
                                 = exists_ 1 (name +:+ "/") w').
  { intros fuel w'. change (1 + fuel) with (S fuel).
    now rewrite !exists_directory by apply endswith_app. }
  split; [| split; [| split; [apply endswith_app | exact Hrec]]].
  - destruct (Py.endswith name "/") eqn:H.
    + rewrite exists_directory by exact H. eauto.
    + rewrite exists_file by exact H.
      destruct (meta name w) as [[m|[ex|msg|msg|msg|msg]] w']; eauto.
  - intros fuel. change (2 + fuel) with (S (S fuel)).
    destruct (Py.endswith name "/") eqn:H.
    + now rewrite !exists_directory.
    + now rewrite !exists_file.
Qed.

(** C5: with any mode other than ["rb"], [_open] raises the
    [ValueError] for an unsupported mode and leaves the world as it
    was: no request has been sent. *)
Theorem open_rejects_other_modes (name mode : string) (w : world) :
  mode <> "rb" ->
  _open name mode w =
    (Raise (ValueError "S3 files can only be opened in read-only mode"), w)
  /\ requests (snd (_open name mode w)) = requests w.
Proof.
  intros H. apply String.eqb_neq in H.
  assert (E : _open name mode w =
    (Raise (ValueError "S3 files can only be opened in read-only mode"), w)).
  { unfold _open, _wrap_errors. now rewrite H. }
  now rewrite E.
Qed.


(** *** Temporary files *)

Lemma on_open_file_last {A} (op : temp_file -> A * temp_file)
    (w : world) (l : list temp_file) (f : temp_file) :
  temp_files w = l ++ [f] -> closed f = false ->
  on_open_file (length l) op w =
  (Return (fst (op f)), with_temp_files (l ++ [snd (op f)]) w).
Proof.
  intros Hl Hc. unfold on_open_file. rewrite Hl.
  rewrite list_lookup_middle by reflexivity. rewrite Hc.
  destruct (op f) as [a f']. simpl.
  rewrite insert_app_r_alt by reflexivity.
  now rewrite Nat.sub_diag.
Qed.

(** *** Requests the store answers *)

Lemma call_answered {A} (r : request) (serve : world -> result A * world)
    (w : world) :
  no_fault 1 (faults w) = true -> S3.call r serve w = serve (S3.sent r w).
Proof.
  unfold S3.call, no_fault. destruct (faults w) as [|[ex|] f]; simpl; congruence.
Qed.

Lemma call_failed {A} (r : request) (serve : world -> result A * world)
    (w : world) (ex : client_error) (f : list (option failure)) :
  faults w = Some (Refused ex) :: f ->
  S3.call r serve w = (Raise (ClientError ex), S3.sent r w).
Proof. unfold S3.call. now intros ->. Qed.

Lemma call_broken {A} (r : request) (serve : world -> result A * world)
    (w : world) (msg : string) (f : list (option failure)) :
  faults w = Some (Broken msg) :: f ->
  S3.call r serve w = (Raise (BotoCoreError msg), S3.sent r w).
Proof. unfold S3.call. now intros ->. Qed.

Lemma no_fault_S (n : nat) (f : list (option failure)) :
  no_fault (S n) f = true -> no_fault 1 f = true /\ no_fault n (tail f) = true.
Proof.
  unfold no_fault. destruct f as [|[ex|] f]; simpl; [now destruct n | discriminate |].
  auto.
Qed.

(** *** Save and open *)

(** Saving bytes when the store answers: one [PutObject] with the
    whole data, whatever position the file was read to. *)
Lemma save_bytes (name : string) (data : list Byte.byte) (pos : nat) (w : world) :
  _get_key_name name <> "" ->
  no_fault 1 (faults w) = true ->
  _save name {| file := BytesIO data; tell := pos |} w =
  (Return name,
   S3.with_objects
     (<[_get_key_name name :=
          {| Body := data; ContentType := content_type_of name;
             LastModified := (clock w + 1)%Z |}]> (objects w))
     (S3.sent (PutObject (AWS_S3_BUCKET_NAME settings) (_get_key_name name)
                 data (content_type_of name)) w)).
Proof.
  intros Hk H. unfold _save, _wrap_errors, _object_params, bind, ret. simpl.
  unfold S3.put_object. rewrite (with_key_valid _ _ Hk).
  rewrite call_answered by exact H. reflexivity.
Qed.

(** Opening a stored key when the store answers. *)
Lemma open_stored (name : string) (o : s3_object) (w : world) :
  _get_key_name name <> "" ->
  no_fault 1 (faults w) = true ->
  objects w !! _get_key_name name = Some o ->
  _open name "rb" w =
  (Return {| S3File_file := length (temp_files w); S3File_name := name |},
   with_temp_files
     (temp_files w ++ [{| buffer := Body o; position := 0; closed := false |}])
     (S3.sent (GetObject (AWS_S3_BUCKET_NAME settings) (_get_key_name name)) w)).
Proof.
  intros Hk H Ho. unfold _open, _wrap_errors, _object_params, bind. simpl.
  unfold S3.get_object. rewrite (with_key_valid _ _ Hk).
  rewrite call_answered by exact H. simpl. rewrite Ho.
  unfold _temporary_file, temp_write. simpl.
  erewrite on_open_file_last; [| reflexivity | reflexivity]. simpl.
  unfold temp_seek. erewrite on_open_file_last; [| reflexivity | reflexivity].
  simpl. unfold ret, with_temp_files. simpl.
  now rewrite drop_nil, app_nil_r.
Qed.

(** C1, amended: for a name whose key is not empty, when the store
    answers the two requests, saving the bytes [data] under [name]
    (from whatever position the caller left the file at) and then
    opening [name] gives a file of that name whose buffer is [data],
    rewound to the start, so that reading it returns [data]; [data]
    may be empty. *)
Theorem save_open_round_trip
    (name : string) (data : list Byte.byte) (pos : nat) (w : world) :
  _get_key_name name <> "" ->
  no_fault 2 (faults w) = true ->
  exists (w1 w2 : world) (f : S3File),
    _save name {| file := BytesIO data; tell := pos |} w = (Return name, w1)
    /\ _open name "rb" w1 = (Return f, w2)
    /\ S3File_name f = name
    /\ temp_files w2 !! S3File_file f
       = Some {| buffer := data; position := 0; closed := false |}
    /\ fst (temp_read (S3File_file f) w2) = Return data.
Proof.
  intros Hk H. apply no_fault_S in H as [H1 H2].
  pose proof (save_bytes name data pos w Hk H1) as Es.
  set (o := {| Body := data; ContentType := content_type_of name;
               LastModified := (clock w + 1)%Z |}) in Es.
  set (w1 := S3.with_objects _ _) in Es.
  assert (Ho : objects w1 !! _get_key_name name = Some o)
    by apply lookup_insert_eq.
  pose proof (open_stored name o w1 Hk H2 Ho) as Eo.
  eexists w1, _, _. split; [exact Es |]. split; [exact Eo |].
  split; [reflexivity |]. simpl.
  split.
  - now rewrite list_lookup_middle.
  - unfold temp_read.
    now rewrite (on_open_file_last _ _ (temp_files w1)
                   {| buffer := data; position := 0; closed := false |})
      by reflexivity.
Qed.

(** *** Timestamps *)



(** *** Listing a directory *)

Lemma relative_unfold (path name : string) (w : world) :
  relative path name w =
  match posixpath.relpath cwd name path with
  | Some r => (Return r, w)
  | None => (Raise (ValueError "no path specified"), w)
  end.
Proof. unfold relative. now destruct (posixpath.relpath cwd name path). Qed.

Lemma append_relative_ok (path : string) (entries out rs : list string)
    (w : world) :
  relativize path entries = Some rs ->
  append_relative path entries out w = (Return (out ++ rs), w).
Proof.
  revert out rs. induction entries as [|e entries IH]; intros out rs; simpl.
  - intros [= <-]. now rewrite app_nil_r.
  - destruct (posixpath.relpath cwd e path) as [r|] eqn:Er; [| discriminate].
    destruct (relativize path entries) as [rs'|]; [| discriminate].
    intros [= <-]. unfold bind. rewrite relative_unfold, Er.
    rewrite (IH (out ++ [r]) rs' eq_refl). now rewrite <- app_assoc.
Qed.

Lemma relativize_app (path : string) (a b rs : list string) :
  relativize path (a ++ b) = Some rs ->
  exists ra rb, relativize path a = Some ra /\ relativize path b = Some rb
                /\ rs = ra ++ rb.
Proof.
  revert rs. induction a as [|x a IH]; intros rs; simpl.
  - intros H. exists [], rs. auto.
  - destruct (posixpath.relpath cwd x path) as [r|]; [| discriminate].
    destruct (relativize path (a ++ b)) as [rs'|]; [| discriminate].
    intros [= <-]. destruct (IH rs' eq_refl) as (ra & rb & -> & -> & ->).
    exists (r :: ra), rb. auto.
Qed.

Lemma contents_of_app (a b : list S3.entry) :
  S3.contents_of (a ++ b) = S3.contents_of a ++ S3.contents_of b.
Proof. apply omap_app. Qed.

Lemma common_prefixes_of_app (a b : list S3.entry) :
  S3.common_prefixes_of (a ++ b)
  = S3.common_prefixes_of a ++ S3.common_prefixes_of b.
Proof. apply omap_app. Qed.

Lemma default_present (l : list string) : default [] (S3.present l) = l.
Proof. now destruct l. Qed.

Lemma concat_chunks (fuel n : nat) (l : list S3.entry) :
  concat (S3.chunks fuel n l) = l.
Proof.
  revert l. induction fuel as [|fuel IH]; intros l; simpl.
  - apply app_nil_r.
  - destruct (Nat.leb (length l) n); simpl; [apply app_nil_r |].
    rewrite IH. apply take_drop.
Qed.

Lemma faults_sent (r : request) (w : world) :
  faults w = [] -> faults (S3.sent r w) = [].
Proof. simpl. now intros ->. Qed.

Lemma call_reliable {A} (r : request) (serve : world -> result A * world)
    (w : world) :
  faults w = [] -> S3.call r serve w = serve (S3.sent r w).
Proof. intros H. apply call_answered. now rewrite H. Qed.

Lemma listdir_pages_ok (path : string) (pages : list (list S3.entry)) :
  forall (marker : option string) (dirs files ds fs : list string) (w : world),
    faults w = [] ->
    relativize path (S3.contents_of (concat pages)) = Some fs ->
    relativize path (S3.common_prefixes_of (concat pages)) = Some ds ->
    listdir_pages path marker pages (dirs, files) w =
    (Return (dirs ++ ds, files ++ fs),
     sent_all (page_requests path marker pages) w).
Proof.
  induction pages as [|this rest IH]; intros marker dirs files ds fs w Hw; simpl.
  - intros [= <-] [= <-]. now rewrite !app_nil_r.
  - rewrite contents_of_app, common_prefixes_of_app.
    intros Hf Hd.
    apply relativize_app in Hf as (f1 & f2 & Hf1 & Hf2 & ->).
    apply relativize_app in Hd as (d1 & d2 & Hd1 & Hd2 & ->).
    unfold bind at 1. unfold S3.next_page. rewrite call_reliable by exact Hw.
    unfold bind at 1. unfold listdir_page, bind. simpl.
    rewrite !default_present.
    rewrite (append_relative_ok _ _ _ _ _ Hf1).
    rewrite (append_relative_ok _ _ _ _ _ Hd1).
    unfold ret.
    rewrite (IH _ _ _ d2 f2 _ (faults_sent _ _ Hw) Hf2 Hd2).
    now rewrite !app_assoc.
Qed.



Lemma listdir_ok (path : string) (w : world) (dirs files : list string) :
  let prefix := listdir_prefix path in
  let l := S3.listing prefix (Some "/") (objects w) in
  faults w = [] ->
  relativize prefix (S3.common_prefixes_of l) = Some dirs ->
  relativize prefix (S3.contents_of l) = Some files ->
  listdir path w =
  (Return (dirs, files),
   sent_all (page_requests prefix None (S3.pages_of prefix (Some "/") (objects w))) w).
Proof.
  intros prefix l Hw Hd Hf. unfold listdir. fold (listdir_prefix path). fold prefix.
  apply (listdir_pages_ok prefix _ None [] [] dirs files w Hw);
    unfold S3.pages_of; now rewrite concat_chunks.
Qed.

(** *** [posixpath.relpath] below an absolute working directory *)

Lemma split_not_nil (s : string) : Py.split "/" s <> [].
Proof.
  destruct s as [|c s]; simpl; [discriminate |].
  destruct (Ascii.eqb c "/"); [discriminate |].
  now destruct (Py.split "/" s).
Qed.

Lemma split_cons (c : ascii) (s : string) :
  Py.split "/" (String c s) =
  if Ascii.eqb c "/" then "" :: Py.split "/" s
  else match Py.split "/" s with
       | h :: t => String c h :: t
       | [] => [String c ""]
       end.
Proof. reflexivity. Qed.

Lemma split_app_sep (a b : string) :
  Py.split "/" (a +:+ String "/" b) = Py.split "/" a ++ Py.split "/" b.
Proof.
  induction a as [|c a IH].
  - reflexivity.
  - change (String c a +:+ String "/" b) with (String c (a +:+ String "/" b)).
    rewrite !split_cons, IH. destruct (Ascii.eqb c "/"); [reflexivity |].
    pose proof (split_not_nil a). now destruct (Py.split "/" a).
Qed.

Lemma split_slashfree (s : string) :
  slashfree s = true -> Py.split "/" s = [s].
Proof.
  induction s as [|c s IH]; [reflexivity |].
  rewrite split_cons. simpl. intros H. apply andb_true_iff in H as [Hc Hs].
  apply negb_true_iff in Hc. rewrite Hc, (IH Hs). reflexivity.
Qed.

Lemma split_parts_slashfree (s : string) :
  Forall (fun x => slashfree x = true) (Py.split "/" s).
Proof.
  induction s as [|c s IH]; [repeat constructor |].
  rewrite split_cons. destruct (Ascii.eqb c "/") eqn:Hc.
  - constructor; [reflexivity | exact IH].
  - destruct (Py.split "/" s) as [|h t]; [repeat constructor; simpl; now rewrite Hc |].
    inversion IH; subst. constructor; [| assumption].
    simpl. rewrite Hc. assumption.
Qed.

Lemma filter_nonempty_clean (l : list string) :
  Forall clean l -> List.filter posixpath.nonempty l = l.
Proof.
  induction 1 as [|x l [_ Hx] _ IH]; [reflexivity |].
  cbn [List.filter]. unfold posixpath.nonempty at 1.
  apply String.eqb_neq in Hx. rewrite Hx. simpl. now rewrite IH.
Qed.

Lemma split_join_clean (l : list string) :
  Forall clean l ->
  List.filter posixpath.nonempty (Py.split "/" (Py.join "/" l)) = l.
Proof.
  induction 1 as [|x l Hx Hl IH]; [reflexivity |].
  destruct l as [|y l].
  - simpl. rewrite split_slashfree by apply Hx.
    apply filter_nonempty_clean. now constructor.
  - change (Py.join "/" (x :: y :: l))
      with (x +:+ String "/" (Py.join "/" (y :: l))).
    rewrite split_app_sep, List.filter_app, IH.
    rewrite split_slashfree by apply Hx.
    rewrite (filter_nonempty_clean [x]) by now constructor.
    reflexivity.
Qed.

Lemma split_leading_slashes (k : nat) (s : string) :
  List.filter posixpath.nonempty (Py.split "/" (Py.times "/" k +:+ s))
  = List.filter posixpath.nonempty (Py.split "/" s).
Proof.
  induction k as [|k IH]; [reflexivity |].
  change (Py.times "/" (S k) +:+ s) with (String "/" (Py.times "/" k +:+ s)).
  rewrite split_cons. simpl. exact IH.
Qed.

Lemma Forall_removelast {A} (P : A -> Prop) (l : list A) :
  Forall P l -> Forall P (removelast l).
Proof.
  induction 1 as [|x l Hx Hl IH]; [constructor |].
  simpl. destruct l; [constructor | now constructor].
Qed.

Lemma normpath_step_clean (k : nat) (comps : list string) (comp : string) :
  Forall clean comps -> slashfree comp = true ->
  Forall clean (posixpath.normpath_step k comps comp).
Proof.
  intros Hc Hs. unfold posixpath.normpath_step.
  destruct (String.eqb_spec comp "") as [->|Hne]; [exact Hc |].
  simpl. destruct (String.eqb comp posixpath.curdir); [exact Hc |].
  match goal with |- Forall _ (if ?b then _ else _) => destruct b end.
  - apply Forall_app. split; [exact Hc |]. repeat constructor; assumption.
  - now apply Forall_removelast.
Qed.

Lemma normpath_comps_clean (k : nat) (parts comps : list string) :
  Forall (fun x => slashfree x = true) parts -> Forall clean comps ->
  Forall clean (fold_left (posixpath.normpath_step k) parts comps).
Proof.
  intros Hp. revert comps. induction Hp as [|x parts Hx _ IH]; intros comps Hc.
  - exact Hc.
  - simpl. apply IH. now apply normpath_step_clean.
Qed.

Lemma normpath_step_plain (k : nat) (comps : list string) (x : string) :
  plain x = true -> posixpath.normpath_step k comps x = comps ++ [x].
Proof.
  unfold plain, posixpath.normpath_step. intros H.
  apply andb_true_iff in H as [H H3]. apply andb_true_iff in H as [H H2].
  apply andb_true_iff in H as [_ H1].
  apply negb_true_iff in H1, H2. 
  change posixpath.curdir with ".". change posixpath.pardir with "..".
  rewrite H1, H2. simpl. now rewrite H3.
Qed.

Lemma commonprefix_len_app (l r : list string) :
  posixpath.commonprefix_len l (l ++ r) = length l.
Proof.
  induction l as [|x l IH]; simpl; [now destruct r |].
  now rewrite String.eqb_refl, IH.
Qed.

Lemma startswith_nil_cons (a : ascii) (p : string) :
  Py.startswith "" (String a p) = false.
Proof. reflexivity. Qed.

Lemma append_nil_l (s : string) : "" +:+ s = s.
Proof. reflexivity. Qed.

Lemma append_cons (c : ascii) (s t : string) :
  String c s +:+ t = String c (s +:+ t).
Proof. reflexivity. Qed.

Lemma append_nil_r (s : string) : s +:+ "" = s.
Proof. induction s as [|c s IH]; [reflexivity |]. now rewrite append_cons, IH. Qed.

Lemma append_assoc (a b c : string) : (a +:+ b) +:+ c = a +:+ (b +:+ c).
Proof.
  induction a as [|x a IH]; [reflexivity |]. now rewrite !append_cons, IH.
Qed.

Lemma initial_slashes_ext (c x : string) :
  Py.startswith x "/" = false ->
  posixpath.initial_slashes (c +:+ String "/" x)
  = posixpath.initial_slashes (c +:+ "/").
Proof.
  intros Hx. unfold posixpath.initial_slashes, posixpath.sep.
  change (Py.times "/" 2) with "//". change (Py.times "/" 3) with "///".
  destruct c as [|a [|b [|d c]]];
    rewrite ?append_cons, ?append_nil_l, ?startswith_cons, ?startswith_nil_cons,
      ?startswith_empty, ?Hx, ?Ascii.eqb_refl; reflexivity.
Qed.

Lemma initial_slashes_absolute (s : string) :
  Py.startswith s "/" = true ->
  exists k, posixpath.initial_slashes s = S k.
Proof.
  intros H. unfold posixpath.initial_slashes, posixpath.sep. rewrite H.
  match goal with |- context [if ?b then 2 else 1] => destruct b end; eauto.
Qed.

(** [normpath] of an absolute path: the slashes it keeps, then the
    components joined. *)
Lemma normpath_absolute (s : string) :
  Py.startswith s "/" = true ->
  posixpath.normpath s =
  Py.times "/" (posixpath.initial_slashes s)
  +:+ Py.join "/" (fold_left (posixpath.normpath_step (posixpath.initial_slashes s))
                     (Py.split "/" s) []).
Proof.
  intros H. unfold posixpath.normpath.
  destruct (initial_slashes_absolute s H) as [k ->].
  destruct s as [|c s]; [discriminate |].
  change (String.eqb (String c s) "") with false. cbv iota.
  change posixpath.sep with "/".
  change (Py.times "/" (S k)) with ("/" +:+ Py.times "/" k).
  now rewrite !append_cons.
Qed.

Lemma components_absolute (s : string) :
  Py.startswith s "/" = true ->
  List.filter posixpath.nonempty (Py.split "/" (posixpath.normpath s))
  = fold_left (posixpath.normpath_step (posixpath.initial_slashes s))
      (Py.split "/" s) [].
Proof.
  intros H. rewrite (normpath_absolute s H), split_leading_slashes.
  apply split_join_clean, normpath_comps_clean;
    [apply split_parts_slashfree | constructor].
Qed.

Lemma endswith_sep_inv (s : string) :
  Py.endswith s "/" = true -> exists c, s = c +:+ "/".
Proof.
  induction s as [|a s IH]; [discriminate |].
  rewrite endswith_cons. destruct (String.eqb_spec (String a s) "/") as [E|_].
  - intros _. exists "". now rewrite E.
  - intros H. destruct (IH H) as [c ->]. now exists (String a c).
Qed.

Lemma slashfree_not_absolute (x : string) :
  slashfree x = true -> Py.startswith x "/" = false.
Proof.
  destruct x as [|c x]; [reflexivity |]. simpl slashfree. intros H.
  apply andb_true_iff in H as [H _]. apply negb_true_iff in H.
  rewrite startswith_cons, Ascii.eqb_sym, H. reflexivity.
Qed.

Lemma startswith_append (s t p : string) :
  Py.startswith s p = true -> Py.startswith (s +:+ t) p = true.
Proof.
  revert s. induction p as [|a p IH]; intros s; [now rewrite !startswith_empty |].
  destruct s as [|b s]; [discriminate |].
  rewrite append_cons, !startswith_cons. intros H.
  apply andb_true_iff in H as [-> H]. now rewrite (IH _ H).
Qed.

(** The two paths [relpath] compares, for a name probed from an
    absolute working directory. *)
Lemma abspath_forms :
  posixpath.isabs cwd = true ->
  exists c,
    Py.startswith (c +:+ "/") "/" = true
    /\ posixpath.abspath cwd "" = posixpath.normpath (c +:+ "/")
    /\ (forall x, Py.startswith x "/" = false ->
                  posixpath.abspath cwd x
                  = posixpath.normpath (c +:+ String "/" x)).
Proof.
  unfold posixpath.isabs, posixpath.sep. intros Habs.
  destruct (Py.endswith cwd "/") eqn:He.
  - destruct (endswith_sep_inv cwd He) as [c Hc]. exists c.
    rewrite <- Hc. split; [exact Habs |].
    assert (Hj : forall x, Py.startswith x "/" = false ->
              posixpath.abspath cwd x = posixpath.normpath (cwd +:+ x)).
    { intros x Hx. unfold posixpath.abspath, posixpath.isabs, posixpath.join2,
        posixpath.sep. now rewrite Hx, He, orb_true_r. }
    split.
    + rewrite (Hj "" eq_refl). now rewrite append_nil_r.
    + intros x Hx. rewrite (Hj x Hx), Hc, append_assoc. reflexivity.
  - exists cwd.
    assert (Hne : String.eqb cwd "" = false) by now destruct cwd.
    assert (Hj : forall x, Py.startswith x "/" = false ->
              posixpath.abspath cwd x
              = posixpath.normpath (cwd +:+ String "/" x)).
    { intros x Hx. unfold posixpath.abspath, posixpath.isabs, posixpath.join2,
        posixpath.sep. now rewrite Hx, He, Hne. }
    split; [now apply startswith_append |].
    split; [exact (Hj "" eq_refl) | exact Hj].
Qed.

Lemma components_below (c x name : string) :
  Py.startswith (c +:+ "/") "/" = true ->
  Py.startswith x "/" = false ->
  (forall k comps,
      fold_left (posixpath.normpath_step k) (Py.split "/" x) comps
      = comps ++ [name]) ->
  List.filter posixpath.nonempty
    (Py.split "/" (posixpath.normpath (c +:+ String "/" x)))
  = List.filter posixpath.nonempty
      (Py.split "/" (posixpath.normpath (c +:+ "/"))) ++ [name].
Proof.
  intros Hc Hx Hfold.
  assert (Hcx : Py.startswith (c +:+ String "/" x) "/" = true).
  { destruct c as [|a c]; [reflexivity |].
    rewrite append_cons, startswith_cons, startswith_empty in *. exact Hc. }
  rewrite (components_absolute _ Hcx), (components_absolute _ Hc).
  rewrite (initial_slashes_ext c x Hx), !split_app_sep, !fold_left_app.
  rewrite Hfold. reflexivity.
Qed.

Lemma relpath_below (x name : string) :
  posixpath.isabs cwd = true ->
  x <> "" ->
  Py.startswith x "/" = false ->
  (forall k comps,
      fold_left (posixpath.normpath_step k) (Py.split "/" x) comps
      = comps ++ [name]) ->
  posixpath.relpath cwd x "" = Some name.
Proof.
  intros Habs Hne Hx Hfold.
  destruct (abspath_forms Habs) as (c & Hc & Hs & Hp).
  unfold posixpath.relpath. apply String.eqb_neq in Hne. rewrite Hne.
  rewrite Hs, (Hp x Hx), (components_below c x name Hc Hx Hfold).
  cbv zeta. rewrite commonprefix_len_app, Nat.sub_diag.
  change (List.skipn ?n ?l) with (drop n l). rewrite drop_app_length.
  reflexivity.
Qed.

(** A plain name, with or without a trailing separator, is relative
    to the bucket root under its own name. *)
Lemma relpath_child (name : string) :
  posixpath.isabs cwd = true -> plain name = true ->
  posixpath.relpath cwd name "" = Some name
  /\ posixpath.relpath cwd (name +:+ "/") "" = Some name.
Proof.
  intros Habs Hp. pose proof Hp as Hp'. unfold plain in Hp'.
  apply andb_true_iff in Hp' as [Hp' _]. apply andb_true_iff in Hp' as [Hp' _].
  apply andb_true_iff in Hp' as [Hsf Hne]. apply negb_true_iff in Hne.
  apply String.eqb_neq in Hne.
  pose proof (slashfree_not_absolute name Hsf) as Hna.
  split; apply relpath_below; try assumption.
  - intros k comps. rewrite (split_slashfree name Hsf).
    cbn [fold_left]. now apply normpath_step_plain.
  - destruct name; [congruence | discriminate].
  - destruct name as [|a name]; [congruence |].
    rewrite append_cons, startswith_cons in *. exact Hna.
  - intros k comps.
    change (name +:+ "/") with (name +:+ String "/" "").
    rewrite split_app_sep, (split_slashfree name Hsf).
    cbn [Py.split app fold_left].
    rewrite (normpath_step_plain k comps name Hp). reflexivity.
Qed.



(** *** Failures of the store *)

(** What [_wrap_errors] turns a [ClientError] into. *)
Lemma wrap_errors_client_error {A} (func : string -> M A) (name : string)
    (w w' : world) (ex : client_error) :
  func name w = (Raise (ClientError ex), w') ->
  _wrap_errors func name w =
  (Raise (S3Error ("S3Storage error at " +:+ repr name +:+ ": "
                   +:+ force_text ex)), w').
Proof. unfold _wrap_errors. now intros ->. Qed.

(** The listing request of the directory probe is sent outside
    [_wrap_errors]: its [ClientError] reaches the caller as it is. *)
Lemma exists_directory_client_error (fuel : nat) (name : string) (w : world)
    (ex : client_error) (f : list (option failure)) :
  Py.endswith name "/" = true ->
  faults w = Some (Refused ex) :: f ->
  exists_ (S fuel) name w =
  Some (Raise (ClientError ex),
        S3.sent (ListObjects (AWS_S3_BUCKET_NAME settings) None None None) w).
Proof.
  intros H Hf. rewrite (exists_directory fuel name w H).
  unfold directory_probe. now rewrite Hf.
Qed.

Lemma chunks_not_nil (fuel n : nat) (l : list S3.entry) :
  S3.chunks fuel n l <> [].
Proof.
  destruct fuel; simpl; [discriminate |].
  now destruct (Nat.leb (length l) n).
Qed.

(** So is the first request of [listdir]. *)
Lemma listdir_client_error (path : string) (w : world)
    (ex : client_error) (f : list (option failure)) :
  faults w = Some (Refused ex) :: f ->
  listdir path w =
  (Raise (ClientError ex),
   S3.sent (ListObjects (AWS_S3_BUCKET_NAME settings)
              (Some (listdir_prefix path)) (Some "/") None) w).
Proof.
  intros Hf. unfold listdir. fold (listdir_prefix path).
  pose proof (chunks_not_nil
                (length (S3.listing (listdir_prefix path) (Some "/") (objects w)))
                S3.MaxKeys
                (S3.listing (listdir_prefix path) (Some "/") (objects w))) as Hn.
  unfold S3.pages_of.
  destruct (S3.chunks _ _ _) as [|this rest]; [congruence |].
  cbn [listdir_pages]. unfold bind at 1. unfold S3.next_page.
  now rewrite (call_failed _ _ _ _ _ Hf).
Qed.

(** *** Temporary files of [_save] *)

Lemma for_each_write_last (chunks : list string) :
  forall (w : world) (l : list temp_file) (t : temp_file),
    temp_files w = l ++ [t] -> closed t = false ->
    exists t',
      for_each chunks (fun chunk => temp_write (length l) (force_bytes chunk)) w
      = (Return tt, with_temp_files (l ++ [t']) w)
      /\ closed t' = false.
Proof.
  induction chunks as [|c chunks IH]; intros w l t Hl Hc.
  - exists t. split; [| exact Hc].
    cbn [for_each]. unfold ret. rewrite <- Hl. now destruct w.
  - cbn [for_each]. unfold bind at 1. unfold temp_write at 1.
    rewrite (on_open_file_last _ w l t Hl Hc).
    cbv beta iota. cbn [fst snd].
    set (t1 := {| buffer := _; position := _; closed := false |}).
    destruct (IH (with_temp_files (l ++ [t1]) w) l t1 eq_refl eq_refl)
      as (t' & E & Hc').
    exists t'. rewrite E. split; [reflexivity | exact Hc'].
Qed.

(** When the upload of a text fails, [_save] raises with the
    temporary file still open. *)
Lemma save_text_upload_fails (name text : string) (pos : nat) (w : world)
    (ex : client_error) (f : list (option failure)) :
  _get_key_name name <> "" ->
  faults w = Some (Refused ex) :: f ->
  exists (w' : world) (t : temp_file),
    _save name {| file := TextIO text; tell := pos |} w =
    (Raise (S3Error ("S3Storage error at " +:+ repr name +:+ ": "
                     +:+ force_text ex)), w')
    /\ temp_files w' = temp_files w ++ [t]
    /\ closed t = false.
Proof.
  intros Hk Hf.
  set (w0 := with_temp_files
               (temp_files w ++ [{| buffer := []; position := 0; closed := false |}]) w).
  destruct (for_each_write_last (text_chunks text) w0 (temp_files w) _
              eq_refl eq_refl) as (t1 & E1 & Hc1).
  set (t2 := {| buffer := buffer t1; position := 0; closed := false |}).
  set (t3 := {| buffer := buffer t2;
                position := Nat.max (position t2) (length (buffer t2));
                closed := false |}).
  exists (S3.sent (PutObject (AWS_S3_BUCKET_NAME settings) (_get_key_name name)
                     (drop (position t2) (buffer t2)) (content_type_of name))
            (with_temp_files (temp_files w ++ [t3]) w)), t3.
  split; [| split; reflexivity].
  apply wrap_errors_client_error.
  unfold _object_params, bind, _temporary_file. cbn [File_seek file].
  fold w0. rewrite E1. unfold temp_seek.
  rewrite (on_open_file_last _ (with_temp_files (temp_files w ++ [t1]) w0)
             (temp_files w) t1 eq_refl Hc1).
  cbv beta iota. cbn [fst snd]. fold t2.
  unfold ret, read_source, temp_read.
  rewrite (on_open_file_last _
             (with_temp_files (temp_files w ++ [t2])
                (with_temp_files (temp_files w ++ [t1]) w0))
             (temp_files w) t2 eq_refl eq_refl).
  cbv beta iota. cbn [fst snd]. fold t3.
  unfold S3.put_object. fold (content_type_of name).
  rewrite (with_key_valid _ _ Hk).
  now rewrite (call_failed _ _ _ ex f) by exact Hf.
Qed.

(** When the upload succeeds, the temporary file is closed before
    [_save] returns. *)
Lemma save_text_upload_succeeds (name text : string) (pos : nat) (w : world) :
  _get_key_name name <> "" ->
  no_fault 1 (faults w) = true ->
  exists (w' : world) (t : temp_file),
    _save name {| file := TextIO text; tell := pos |} w = (Return name, w')
    /\ temp_files w' = temp_files w ++ [t]
    /\ closed t = true.
Proof.
  intros Hk Hf.
  set (w0 := with_temp_files
               (temp_files w ++ [{| buffer := []; position := 0; closed := false |}]) w).
  destruct (for_each_write_last (text_chunks text) w0 (temp_files w) _
              eq_refl eq_refl) as (t1 & E1 & Hc1).
  set (t2 := {| buffer := buffer t1; position := 0; closed := false |}).
  set (t3 := {| buffer := buffer t2;
                position := Nat.max (position t2) (length (buffer t2));
                closed := false |}).
  set (t4 := {| buffer := buffer t3; position := position t3; closed := true |}).
  eexists _, t4.
  split; [| split; [| reflexivity]].
  - unfold _save, _wrap_errors.
    unfold _object_params, bind, _temporary_file. cbn [File_seek file].
    fold w0. rewrite E1. unfold temp_seek.
    rewrite (on_open_file_last _ (with_temp_files (temp_files w ++ [t1]) w0)
               (temp_files w) t1 eq_refl Hc1).
    cbv beta iota. cbn [fst snd]. fold t2.
    unfold ret, read_source, temp_read.
    rewrite (on_open_file_last _
               (with_temp_files (temp_files w ++ [t2])
                  (with_temp_files (temp_files w ++ [t1]) w0))
               (temp_files w) t2 eq_refl eq_refl).
    cbv beta iota. cbn [fst snd]. fold t3.
    unfold S3.put_object. fold (content_type_of name).
    rewrite (with_key_valid _ _ Hk).
    rewrite call_answered by exact Hf.
    cbn [for_each app]. unfold bind, temp_close, ret.
    cbn [temp_files S3.with_objects S3.sent with_temp_files].
    rewrite list_lookup_middle by reflexivity.
    rewrite insert_app_r_alt by reflexivity. rewrite Nat.sub_diag.
    cbn [list_insert insert]. fold t4. reflexivity.
  - reflexivity.
Qed.
(** ** Further properties of the adapter *)

(** *** What [_save] uploads *)

Lemma for_each_write_appends (chunks : list string) :
  forall (w : world) (l : list temp_file) (buf : list Byte.byte),
    temp_files w = l ++ [{| buffer := buf; position := length buf;
                            closed := false |}] ->
    for_each chunks (fun chunk => temp_write (length l) (force_bytes chunk)) w
    = (Return tt,
       with_temp_files
         (l ++ [{| buffer := buf ++ concat (map force_bytes chunks);
                   position := length (buf ++ concat (map force_bytes chunks));
                   closed := false |}]) w).
Proof.
  induction chunks as [|c chunks IH]; intros w l buf Hl.
  - cbn [for_each map concat]. unfold ret. rewrite app_nil_r, <- Hl.
    now destruct w.
  - cbn [for_each]. unfold bind at 1. unfold temp_write at 1.
    rewrite (on_open_file_last _ w l _ Hl eq_refl).
    cbv beta iota. cbn [fst snd buffer position].
    rewrite firstn_all, drop_ge, app_nil_r by lia.
    rewrite <- length_app.
    rewrite (IH (with_temp_files _ w) l (buf ++ force_bytes c) eq_refl).
    cbn [map concat]. now rewrite <- !app_assoc.
Qed.

(** When the store answers, [_save] returns the name and puts the
    payload under the key of the name. *)
Lemma save_stores (name : string) (content : File) (w : world) :
  _get_key_name name <> "" ->
  no_fault 1 (faults w) = true ->
  fst (_save name content w) = Return name
  /\ objects (snd (_save name content w))
     = <[_get_key_name name :=
           {| Body := payload content; ContentType := content_type_of name;
              LastModified := (clock w + 1)%Z |}]> (objects w)
  /\ requests (snd (_save name content w))
     = requests w ++ [PutObject (AWS_S3_BUCKET_NAME settings) (_get_key_name name)
                        (payload content) (content_type_of name)]
  /\ faults (snd (_save name content w)) = tail (faults w)
  /\ temp_files (snd (_save name content w))
     = temp_files w
       ++ match file content with
          | BytesIO _ => []
          | TextIO _ => [{| buffer := payload content;
                            position := length (payload content);
                            closed := true |}]
          end.
Proof.
  intros Hkey Hf. destruct content as [[data|text] pos].
  - rewrite (save_bytes name data pos w Hkey Hf). cbn [file]. rewrite app_nil_r.
    auto 6.
  - set (w0 := with_temp_files
                 (temp_files w ++ [{| buffer := []; position := 0; closed := false |}]) w).
    pose proof (for_each_write_appends (text_chunks text) w0 (temp_files w) []
                  eq_refl) as E1.
    cbn [app] in E1.
    set (bytes := concat (map force_bytes (text_chunks text))) in *.
    set (t1 := {| buffer := bytes; position := length bytes; closed := false |}) in E1.
    set (t2 := {| buffer := bytes; position := 0; closed := false |}).
    set (t3 := {| buffer := bytes; position := Nat.max 0 (length bytes);
                  closed := false |}).
    assert (E : _save name {| file := TextIO text; tell := pos |} w =
                (Return name,
                 with_temp_files
                   (temp_files w ++ [{| buffer := bytes;
                                        position := Nat.max 0 (length bytes);
                                        closed := true |}])
                   (S3.with_objects
                      (<[_get_key_name name :=
                           {| Body := bytes; ContentType := content_type_of name;
                              LastModified := (clock w + 1)%Z |}]> (objects w))
                      (S3.sent (PutObject (AWS_S3_BUCKET_NAME settings)
                                  (_get_key_name name) bytes (content_type_of name))
                         w)))).
    { unfold _save, _wrap_errors.
      unfold _object_params, bind, _temporary_file. cbn [File_seek file].
      fold w0. rewrite E1. unfold temp_seek.
      rewrite (on_open_file_last _ (with_temp_files (temp_files w ++ [t1]) w0)
                 (temp_files w) t1 eq_refl eq_refl).
      cbv beta iota. cbn [fst snd buffer t1]. fold t2.
      unfold ret, read_source, temp_read.
      rewrite (on_open_file_last _
                 (with_temp_files (temp_files w ++ [t2])
                    (with_temp_files (temp_files w ++ [t1]) w0))
                 (temp_files w) t2 eq_refl eq_refl).
      cbv beta iota. cbn [fst snd buffer position t2]. fold t3.
      rewrite drop_0.
      unfold S3.put_object. fold (content_type_of name).
      rewrite (with_key_valid _ _ Hkey).
      rewrite call_answered by exact Hf.
      cbn [for_each app]. unfold bind, temp_close, ret.
      cbn [temp_files S3.with_objects S3.sent with_temp_files].
      rewrite list_lookup_middle by reflexivity.
      rewrite insert_app_r_alt by reflexivity. rewrite Nat.sub_diag.
      reflexivity. }
    rewrite E. cbn [file payload]. fold bytes. rewrite Nat.max_0_l. auto 6.
Qed.

(** When the store refuses the upload, [_save] raises the [S3Error] of
    the name and the bucket is as before. *)
Lemma save_refused (name : string) (content : File) (w : world)
    (ex : client_error) (f : list (option failure)) :
  _get_key_name name <> "" ->
  faults w = Some (Refused ex) :: f ->
  fst (_save name content w) = Raise (S3Error (error_message name ex))
  /\ objects (snd (_save name content w)) = objects w.
Proof.
  intros Hkey Hf. destruct content as [[data|text] pos].
  - unfold _save, _wrap_errors, _object_params, bind, ret. cbn [File_seek file].
    unfold read_source, ret, S3.put_object. rewrite (with_key_valid _ _ Hkey).
    rewrite (call_failed _ _ _ ex f Hf). auto.
  - set (w0 := with_temp_files
                 (temp_files w ++ [{| buffer := []; position := 0; closed := false |}]) w).
    pose proof (for_each_write_appends (text_chunks text) w0 (temp_files w) []
                  eq_refl) as E1.
    cbn [app] in E1.
    set (bytes := concat (map force_bytes (text_chunks text))) in *.
    set (t1 := {| buffer := bytes; position := length bytes; closed := false |}) in E1.
    set (t2 := {| buffer := bytes; position := 0; closed := false |}).
    unfold _save, _wrap_errors.
    unfold _object_params, bind, _temporary_file. cbn [File_seek file].
    fold w0. rewrite E1. unfold temp_seek.
    rewrite (on_open_file_last _ (with_temp_files (temp_files w ++ [t1]) w0)
               (temp_files w) t1 eq_refl eq_refl).
    cbv beta iota. cbn [fst snd buffer t1]. fold t2.
    unfold ret, read_source, temp_read.
    rewrite (on_open_file_last _
               (with_temp_files (temp_files w ++ [t2])
                  (with_temp_files (temp_files w ++ [t1]) w0))
               (temp_files w) t2 eq_refl eq_refl).
    cbv beta iota. cbn [fst snd buffer position t2].
    unfold S3.put_object. rewrite (with_key_valid _ _ Hkey).
    rewrite (call_failed _ _ _ ex f) by exact Hf. auto.
Qed.

(** When the key of the name is empty, the client refuses the upload
    before sending it: [_save] raises the [ParamValidationError] as it
    is, and nothing is sent or stored. *)
Lemma save_invalid_key_world (name : string) (content : File) (w : world) :
  _get_key_name name = "" ->
  fst (_save name content w) = Raise S3.invalid_key
  /\ objects (snd (_save name content w)) = objects w
  /\ requests (snd (_save name content w)) = requests w
  /\ faults (snd (_save name content w)) = faults w.
Proof.
  intros Hkey. destruct content as [[data|text] pos].
  - unfold _save, _wrap_errors, _object_params, bind, ret. cbn [File_seek file].
    unfold read_source, ret, S3.put_object. rewrite Hkey, with_key_empty. auto.
  - set (w0 := with_temp_files
                 (temp_files w ++ [{| buffer := []; position := 0; closed := false |}]) w).
    pose proof (for_each_write_appends (text_chunks text) w0 (temp_files w) []
                  eq_refl) as E1.
    cbn [app] in E1.
    set (bytes := concat (map force_bytes (text_chunks text))) in *.
    set (t1 := {| buffer := bytes; position := length bytes; closed := false |}) in E1.
    set (t2 := {| buffer := bytes; position := 0; closed := false |}).
    unfold _save, _wrap_errors.
    unfold _object_params, bind, _temporary_file. cbn [File_seek file].
    fold w0. rewrite E1. unfold temp_seek.
    rewrite (on_open_file_last _ (with_temp_files (temp_files w ++ [t1]) w0)
               (temp_files w) t1 eq_refl eq_refl).
    cbv beta iota. cbn [fst snd buffer t1]. fold t2.
    unfold ret, read_source, temp_read.
    rewrite (on_open_file_last _
               (with_temp_files (temp_files w ++ [t2])
                  (with_temp_files (temp_files w ++ [t1]) w0))
               (temp_files w) t2 eq_refl eq_refl).
    cbv beta iota. cbn [fst snd buffer position t2].
    unfold S3.put_object. rewrite Hkey, with_key_empty. auto.
Qed.

Lemma save_invalid_key (name : string) (content : File) (w : world) :
  _get_key_name name = "" ->
  fst (_save name content w) = Raise S3.invalid_key
  /\ objects (snd (_save name content w)) = objects w
  /\ requests (snd (_save name content w)) = requests w.
Proof.
  intros Hkey.
  destruct (save_invalid_key_world name content w Hkey) as (H1 & H2 & H3 & _).
  auto.
Qed.

Lemma concat_force_bytes (chunks : list string) :
  (forall a b, force_bytes (a +:+ b) = force_bytes a ++ force_bytes b) ->
  force_bytes "" = [] ->
  concat (map force_bytes chunks)
  = force_bytes (fold_right String.append "" chunks).
Proof.
  intros Happ Hnil. induction chunks as [|c chunks IH]; simpl.
  - now rewrite Hnil.
  - now rewrite Happ, IH.
Qed.

(** X1: a text is stored as its encoding.  When the store answers,
    saving a text file under a [name] whose key is not empty leaves
    under the key of [name] the bytes of the chunks of the text, one
    after the other; for an encoding that goes through concatenation,
    as UTF-8 does, these are the bytes of the whole text. *)
Theorem save_text_stores_encoding (name text : string) (pos : nat) (w : world) :
  _get_key_name name <> "" ->
  no_fault 1 (faults w) = true ->
  (forall a b, force_bytes (a +:+ b) = force_bytes a ++ force_bytes b) ->
  force_bytes "" = [] ->
  Body <$> objects (snd (_save name {| file := TextIO text; tell := pos |} w))
             !! _get_key_name name
  = Some (force_bytes text).
Proof.
  intros Hkey Hf Happ Hnil.
  destruct (save_stores name {| file := TextIO text; tell := pos |} w Hkey Hf)
    as (_ & -> & _).
  rewrite lookup_insert_eq. cbn [fmap option_fmap option_map Body payload file].
  now rewrite (concat_force_bytes _ Happ Hnil), text_chunks_lossless.
Qed.

(** X2: for a name whose key is not empty and a store that answers,
    the content type of the stored object is the type guessed from the
    name, and [application/octet-stream] when none, or an empty one, is
    guessed. *)
Theorem save_content_type (name : string) (content : File) (w : world) :
  _get_key_name name <> "" ->
  no_fault 1 (faults w) = true ->
  exists o : s3_object,
    objects (snd (_save name content w)) !! _get_key_name name = Some o
    /\ (forall t, guess_type name = Some t -> t <> "" -> ContentType o = t)
    /\ (guess_type name = None \/ guess_type name = Some "" ->
        ContentType o = "application/octet-stream").
Proof.
  intros Hkey Hf. destruct (save_stores name content w Hkey Hf) as (_ & -> & _).
  eexists. split; [apply lookup_insert_eq |]. cbn [ContentType].
  unfold content_type_of. split.
  - intros t -> Ht. apply String.eqb_neq in Ht. now rewrite Ht.
  - intros [-> | ->]; reflexivity.
Qed.

(** X3: a save under a name whose key is not empty, that the store
    accepts, replaces what was under the key of the name, sends one
    request, and leaves every other key of the bucket as it was. *)
Theorem save_replaces_only_its_key (name : string) (content : File) (w : world) :
  _get_key_name name <> "" ->
  no_fault 1 (faults w) = true ->
  fst (_save name content w) = Return name
  /\ Body <$> objects (snd (_save name content w)) !! _get_key_name name
     = Some (payload content)
  /\ (forall key, key <> _get_key_name name ->
        objects (snd (_save name content w)) !! key = objects w !! key)
  /\ length (requests (snd (_save name content w))) = S (length (requests w)).
Proof.
  intros Hkey Hf.
  destruct (save_stores name content w Hkey Hf) as (Hr & -> & -> & _).
  split; [exact Hr |]. split; [now rewrite lookup_insert_eq |].
  split.
  - intros key Hk. now rewrite lookup_insert_ne.
  - rewrite length_app. simpl. lia.
Qed.

(** X4: a save that does not go through writes nothing.  When the store
    answers the upload under a name whose key is not empty with an
    error, [_save] raises, whatever the content, the [S3Error] built
    from the name and the error; when the key is empty the client
    refuses the upload with its [ParamValidationError], which reaches
    the caller as it is, and no request is sent.  Either way the bucket
    is as it was. *)
Theorem save_refused_writes_nothing (name : string) (content : File) (w : world) :
  (forall ex f,
      _get_key_name name <> "" ->
      faults w = Some (Refused ex) :: f ->
      fst (_save name content w)
      = Raise (S3Error ("S3Storage error at " +:+ repr name +:+ ": "
                        +:+ force_text ex))
      /\ objects (snd (_save name content w)) = objects w)
  /\ (_get_key_name name = "" ->
      fst (_save name content w) = Raise S3.invalid_key
      /\ objects (snd (_save name content w)) = objects w
      /\ requests (snd (_save name content w)) = requests w).
Proof.
  split.
  - intros ex f Hkey Hf. exact (save_refused name content w ex f Hkey Hf).
  - apply save_invalid_key.
Qed.

(** *** The answers and refusals of the store, operation by operation *)

Lemma open_missing (name : string) (w : world) :
  _get_key_name name <> "" ->
  no_fault 1 (faults w) = true ->
  objects w !! _get_key_name name = None ->
  _open name "rb" w =
  (Raise (S3Error (error_message name (S3.NoSuchKey "GetObject"))),
   S3.sent (GetObject (AWS_S3_BUCKET_NAME settings) (_get_key_name name)) w).
Proof.
  intros Hkey Hf Ho. unfold _open, _wrap_errors, _object_params, bind. simpl.
  unfold S3.get_object. rewrite (with_key_valid _ _ Hkey).
  rewrite call_answered by exact Hf. simpl. now rewrite Ho.
Qed.

Lemma open_refused (name : string) (w : world)
    (ex : client_error) (f : list (option failure)) :
  _get_key_name name <> "" ->
  faults w = Some (Refused ex) :: f ->
  _open name "rb" w =
  (Raise (S3Error (error_message name ex)),
   S3.sent (GetObject (AWS_S3_BUCKET_NAME settings) (_get_key_name name)) w).
Proof.
  intros Hkey Hf. unfold _open, _wrap_errors, _object_params, bind. simpl.
  unfold S3.get_object. rewrite (with_key_valid _ _ Hkey).
  now rewrite (call_failed _ _ _ ex f Hf).
Qed.

(** With an empty key, or a client that gives up on its own, what the
    client raises is no [ClientError]: it passes [_wrap_errors] as it
    is. *)
Lemma open_invalid_key (name : string) (w : world) :
  _get_key_name name = "" ->
  _open name "rb" w = (Raise S3.invalid_key, w).
Proof.
  intros Hkey. unfold _open, _wrap_errors, _object_params, bind. simpl.
  unfold S3.get_object. now rewrite Hkey, with_key_empty.
Qed.

Lemma open_broken (name : string) (w : world)
    (msg : string) (f : list (option failure)) :
  _get_key_name name <> "" ->
  faults w = Some (Broken msg) :: f ->
  _open name "rb" w =
  (Raise (BotoCoreError msg),
   S3.sent (GetObject (AWS_S3_BUCKET_NAME settings) (_get_key_name name)) w).
Proof.
  intros Hkey Hf. unfold _open, _wrap_errors, _object_params, bind. simpl.
  unfold S3.get_object. rewrite (with_key_valid _ _ Hkey).
  now rewrite (call_broken _ _ _ msg f Hf).
Qed.

Lemma meta_stored (name : string) (o : s3_object) (w : world) :
  _get_key_name name <> "" ->
  no_fault 1 (faults w) = true ->
  objects w !! _get_key_name name = Some o ->
  meta name w =
  (Return {| S3.meta_ContentLength := length (Body o);
             S3.meta_LastModified := aware (LastModified o) utc;
             S3.meta_ContentType := ContentType o |},
   S3.sent (HeadObject (AWS_S3_BUCKET_NAME settings) (_get_key_name name)) w).
Proof.
  intros Hkey Hf Ho. unfold meta, _wrap_errors, _object_params, S3.head_object.
  rewrite (with_key_valid _ _ Hkey).
  rewrite call_answered by exact Hf. cbn [objects S3.sent]. now rewrite Ho.
Qed.

Lemma meta_missing (name : string) (w : world) :
  _get_key_name name <> "" ->
  no_fault 1 (faults w) = true ->
  objects w !! _get_key_name name = None ->
  meta name w =
  (Raise (S3Error (error_message name (S3.NotFound "HeadObject"))),
   S3.sent (HeadObject (AWS_S3_BUCKET_NAME settings) (_get_key_name name)) w).
Proof.
  intros Hkey Hf Ho. unfold meta, _wrap_errors, _object_params, S3.head_object.
  rewrite (with_key_valid _ _ Hkey).
  rewrite call_answered by exact Hf. cbn [objects S3.sent]. now rewrite Ho.
Qed.

Lemma meta_refused (name : string) (w : world)
    (ex : client_error) (f : list (option failure)) :
  _get_key_name name <> "" ->
  faults w = Some (Refused ex) :: f ->
  meta name w =
  (Raise (S3Error (error_message name ex)),
   S3.sent (HeadObject (AWS_S3_BUCKET_NAME settings) (_get_key_name name)) w).
Proof.
  intros Hkey Hf. exact (meta_refused_any name w ex f Hkey Hf).
Qed.

Lemma meta_invalid_key (name : string) (w : world) :
  _get_key_name name = "" ->
  meta name w = (Raise S3.invalid_key, w).
Proof.
  intros Hkey. unfold meta, _wrap_errors, _object_params, S3.head_object.
  now rewrite Hkey, with_key_empty.
Qed.

Lemma meta_broken (name : string) (w : world)
    (msg : string) (f : list (option failure)) :
  _get_key_name name <> "" ->
  faults w = Some (Broken msg) :: f ->
  meta name w =
  (Raise (BotoCoreError msg),
   S3.sent (HeadObject (AWS_S3_BUCKET_NAME settings) (_get_key_name name)) w).
Proof.
  intros Hkey Hf. unfold meta, _wrap_errors, _object_params, S3.head_object.
  rewrite (with_key_valid _ _ Hkey). now rewrite (call_broken _ _ _ msg f Hf).
Qed.

Lemma delete_answered (name : string) (w : world) :
  _get_key_name name <> "" ->
  no_fault 1 (faults w) = true ->
  delete name w =
  (Return tt,
   S3.with_objects (base.delete (_get_key_name name) (objects w))
     (S3.sent (DeleteObject (AWS_S3_BUCKET_NAME settings) (_get_key_name name)) w)).
Proof.
  intros Hkey Hf. unfold delete, _wrap_errors, _object_params, S3.delete_object.
  rewrite (with_key_valid _ _ Hkey). now rewrite call_answered by exact Hf.
Qed.

Lemma delete_refused (name : string) (w : world)
    (ex : client_error) (f : list (option failure)) :
  _get_key_name name <> "" ->
  faults w = Some (Refused ex) :: f ->
  delete name w =
  (Raise (S3Error (error_message name ex)),
   S3.sent (DeleteObject (AWS_S3_BUCKET_NAME settings) (_get_key_name name)) w).
Proof.
  intros Hkey Hf. unfold delete, _wrap_errors, _object_params, S3.delete_object.
  rewrite (with_key_valid _ _ Hkey). now rewrite (call_failed _ _ _ ex f Hf).
Qed.

Lemma delete_invalid_key (name : string) (w : world) :
  _get_key_name name = "" ->
  delete name w = (Raise S3.invalid_key, w).
Proof.
  intros Hkey. unfold delete, _wrap_errors, _object_params, S3.delete_object.
  now rewrite Hkey, with_key_empty.
Qed.

Lemma no_fault_tail (n : nat) (f : list (option failure)) :
  no_fault (S n) f = true -> no_fault n (tail f) = true.
Proof. intros H. now apply no_fault_S in H. Qed.

(** X5: opening a key that is not empty and that the bucket does not
    hold raises the [S3Error] of the name; no temporary file is
    created, and the bucket is as it was. *)
Theorem open_missing_key (name : string) (w : world) :
  _get_key_name name <> "" ->
  no_fault 1 (faults w) = true ->
  objects w !! _get_key_name name = None ->
  fst (_open name "rb" w)
  = Raise (S3Error ("S3Storage error at " +:+ repr name +:+ ": "
                    +:+ force_text (S3.NoSuchKey "GetObject")))
  /\ temp_files (snd (_open name "rb" w)) = temp_files w
  /\ objects (snd (_open name "rb" w)) = objects w.
Proof. intros Hkey Hf Ho. now rewrite (open_missing name w Hkey Hf Ho). Qed.

(** X6: the round trip holds for every content and across names of
    the same key.  When the store answers both requests, what was saved
    under [saved], bytes or text, is what a file opened under [opened]
    reads, as soon as the two names have the same key and that key is
    not empty; the file carries the name it was opened under. *)
Theorem save_open_same_key (saved opened : string) (content : File) (w : world) :
  _get_key_name saved <> "" ->
  _get_key_name saved = _get_key_name opened ->
  no_fault 2 (faults w) = true ->
  exists (f : S3File) (w2 : world),
    _open opened "rb" (snd (_save saved content w)) = (Return f, w2)
    /\ S3File_name f = opened
    /\ fst (temp_read (S3File_file f) w2) = Return (payload content).
Proof.
  intros Hkey Hk Hf. apply no_fault_S in Hf as [H1 H2].
  destruct (save_stores saved content w Hkey H1) as (_ & Ho & _ & Hfs & _).
  set (w1 := snd (_save saved content w)) in *.
  assert (Hl : objects w1 !! _get_key_name opened
               = Some {| Body := payload content;
                         ContentType := content_type_of saved;
                         LastModified := (clock w + 1)%Z |}).
  { rewrite Ho, <- Hk. apply lookup_insert_eq. }
  assert (Hf1 : no_fault 1 (faults w1) = true) by now rewrite Hfs.
  assert (Hkey' : _get_key_name opened <> "") by now rewrite <- Hk.
  rewrite (open_stored opened _ w1 Hkey' Hf1 Hl).
  eexists _, _. split; [reflexivity |]. split; [reflexivity |].
  cbn [S3File_file Body]. unfold temp_read.
  now rewrite (on_open_file_last _ _ (temp_files w1)
                 {| buffer := payload content; position := 0; closed := false |})
    by reflexivity.
Qed.

(** X7: a delete of a name whose key is not empty, that the store
    accepts, removes the key of the name and nothing else; deleting a
    name the bucket does not hold is no error and changes nothing. *)
Theorem delete_removes_only_its_key (name : string) (w : world) :
  _get_key_name name <> "" ->
  no_fault 1 (faults w) = true ->
  fst (delete name w) = Return tt
  /\ objects (snd (delete name w)) !! _get_key_name name = None
  /\ (forall key, key <> _get_key_name name ->
        objects (snd (delete name w)) !! key = objects w !! key)
  /\ (objects w !! _get_key_name name = None ->
        objects (snd (delete name w)) = objects w).
Proof.
  intros Hkey Hf. rewrite (delete_answered name w Hkey Hf).
  cbn [fst snd objects S3.with_objects].
  split; [reflexivity |]. split; [apply lookup_delete_eq |].
  split.
  - intros key Hk. now apply lookup_delete_ne.
  - apply delete_id.
Qed.

(** X8: after a delete, the name is gone for every reader.  When the
    key is not empty and the store answers, [_open], [meta] and [size]
    under any name of the deleted key raise an [S3Error]. *)
Theorem deleted_is_gone (deleted name : string) (w : world) :
  _get_key_name deleted <> "" ->
  _get_key_name deleted = _get_key_name name ->
  no_fault 2 (faults w) = true ->
  fst (_open name "rb" (snd (delete deleted w)))
  = Raise (S3Error (error_message name (S3.NoSuchKey "GetObject")))
  /\ fst (meta name (snd (delete deleted w)))
     = Raise (S3Error (error_message name (S3.NotFound "HeadObject")))
  /\ fst (size name (snd (delete deleted w)))
     = Raise (S3Error (error_message name (S3.NotFound "HeadObject"))).
Proof.
  intros Hkey Hk Hf. apply no_fault_S in Hf as [H1 H2].
  rewrite (delete_answered deleted w Hkey H1). cbn [snd].
  set (w1 := S3.with_objects _ _).
  assert (Hl : objects w1 !! _get_key_name name = None).
  { rewrite <- Hk. apply lookup_delete_eq. }
  assert (Hkey' : _get_key_name name <> "") by now rewrite <- Hk.
  rewrite (open_missing name w1 Hkey' H2 Hl).
  unfold size, bind. rewrite (meta_missing name w1 Hkey' H2 Hl). auto.
Qed.

(** X9: [size] after a save under a key that is not empty is the
    number of bytes uploaded, under any name of the key. *)
Theorem size_after_save (saved name : string) (content : File) (w : world) :
  _get_key_name saved <> "" ->
  _get_key_name saved = _get_key_name name ->
  no_fault 2 (faults w) = true ->
  fst (size name (snd (_save saved content w)))
  = Return (length (payload content)).
Proof.
  intros Hkey Hk Hf. apply no_fault_S in Hf as [H1 H2].
  destruct (save_stores saved content w Hkey H1) as (_ & Ho & _ & Hfs & _).
  set (w1 := snd (_save saved content w)) in *.
  assert (Hl : objects w1 !! _get_key_name name
               = Some {| Body := payload content;
                         ContentType := content_type_of saved;
                         LastModified := (clock w + 1)%Z |}).
  { rewrite Ho, <- Hk. apply lookup_insert_eq. }
  assert (Hf1 : no_fault 1 (faults w1) = true) by now rewrite Hfs.
  assert (Hkey' : _get_key_name name <> "") by now rewrite <- Hk.
  unfold size, bind. now rewrite (meta_stored name _ w1 Hkey' Hf1 Hl).
Qed.

(** X10: for a key that is not empty and that the bucket does not
    hold, [meta], [size] and the timestamp accessors all raise the same
    [S3Error], built from the name and the not-found answer of the
    store. *)
Theorem metadata_of_missing_key (name : string) (w : world) :
  _get_key_name name <> "" ->
  no_fault 1 (faults w) = true ->
  objects w !! _get_key_name name = None ->
  let missing :=
    S3Error ("S3Storage error at " +:+ repr name +:+ ": "
             +:+ force_text (S3.NotFound "HeadObject")) in
  fst (meta name w) = Raise missing
  /\ fst (size name w) = Raise missing
  /\ fst (modified_time name w) = Raise missing
  /\ fst (get_modified_time name w) = Raise missing.
Proof.
  intros Hkey Hf Ho missing.
  unfold size, modified_time, get_modified_time, bind.
  rewrite (meta_missing name w Hkey Hf Ho). auto.
Qed.

Lemma delete_broken (name : string) (w : world)
    (msg : string) (f : list (option failure)) :
  _get_key_name name <> "" ->
  faults w = Some (Broken msg) :: f ->
  delete name w =
  (Raise (BotoCoreError msg),
   S3.sent (DeleteObject (AWS_S3_BUCKET_NAME settings) (_get_key_name name)) w).
Proof.
  intros Hkey Hf. unfold delete, _wrap_errors, _object_params, S3.delete_object.
  rewrite (with_key_valid _ _ Hkey). now rewrite (call_broken _ _ _ msg f Hf).
Qed.

(** X11: of what can go wrong in [_open], [meta], [delete], [size] and
    the timestamp accessors, only the error answers of the store reach
    the caller as [S3Error], built from [repr] of the name and the text
    of the error.  When the client gives up on its own, its
    [BotoCoreError] reaches the caller as it is; so does its
    [ParamValidationError] when the key of the name is empty. *)
Theorem store_failure_is_S3Error (name : string) (w : world) :
  (forall ex f,
      _get_key_name name <> "" ->
      faults w = Some (Refused ex) :: f ->
      let failure :=
        S3Error ("S3Storage error at " +:+ repr name +:+ ": "
                 +:+ force_text ex) in
      fst (_open name "rb" w) = Raise failure
      /\ fst (meta name w) = Raise failure
      /\ fst (delete name w) = Raise failure
      /\ fst (size name w) = Raise failure
      /\ fst (modified_time name w) = Raise failure
      /\ fst (get_modified_time name w) = Raise failure)
  /\ (forall msg f,
        _get_key_name name <> "" ->
        faults w = Some (Broken msg) :: f ->
        fst (_open name "rb" w) = Raise (BotoCoreError msg)
        /\ fst (meta name w) = Raise (BotoCoreError msg)
        /\ fst (delete name w) = Raise (BotoCoreError msg)
        /\ fst (size name w) = Raise (BotoCoreError msg)
        /\ fst (modified_time name w) = Raise (BotoCoreError msg)
        /\ fst (get_modified_time name w) = Raise (BotoCoreError msg))
  /\ (_get_key_name name = "" ->
      fst (_open name "rb" w) = Raise S3.invalid_key
      /\ fst (meta name w) = Raise S3.invalid_key
      /\ fst (delete name w) = Raise S3.invalid_key
      /\ fst (size name w) = Raise S3.invalid_key
      /\ fst (modified_time name w) = Raise S3.invalid_key
      /\ fst (get_modified_time name w) = Raise S3.invalid_key).
Proof.
  split; [| split].
  - intros ex f Hkey Hf failure.
    unfold size, modified_time, get_modified_time, bind.
    rewrite (open_refused name w ex f Hkey Hf), (meta_refused name w ex f Hkey Hf),
      (delete_refused name w ex f Hkey Hf). auto 10.
  - intros msg f Hkey Hf.
    unfold size, modified_time, get_modified_time, bind.
    rewrite (open_broken name w msg f Hkey Hf), (meta_broken name w msg f Hkey Hf),
      (delete_broken name w msg f Hkey Hf). auto 10.
  - intros Hkey.
    unfold size, modified_time, get_modified_time, bind.
    rewrite (open_invalid_key name w Hkey), (meta_invalid_key name w Hkey),
      (delete_invalid_key name w Hkey). auto 10.
Qed.

(** X12: no decorated operation ever raises a [ClientError], in any
    world and whatever the store does. *)
Theorem decorated_never_raise_ClientError (name mode : string) (content : File)
    (w : world) (ex : client_error) :
  fst (_open name mode w) <> Raise (ClientError ex)
  /\ fst (_save name content w) <> Raise (ClientError ex)
  /\ fst (meta name w) <> Raise (ClientError ex)
  /\ fst (delete name w) <> Raise (ClientError ex)
  /\ fst (size name w) <> Raise (ClientError ex)
  /\ fst (modified_time name w) <> Raise (ClientError ex)
  /\ fst (get_modified_time name w) <> Raise (ClientError ex).
Proof.
  assert (Hw : forall A (func : string -> M A) n w0,
             fst (_wrap_errors func n w0) <> Raise (ClientError ex)).
  { intros A func n w0. unfold _wrap_errors.
    destruct (func n w0) as [[a|[e|m|m|m|m]] w1]; discriminate. }
  assert (Hm : fst (meta name w) <> Raise (ClientError ex)) by apply Hw.
  repeat split; try apply Hw; try exact Hm.
  - unfold size, bind. destruct (meta name w) as [[m|e] w1]; [discriminate |].
    cbn [fst] in *. intros [= ->]. now apply Hm.
  - unfold modified_time, bind, lift.
    destruct (meta name w) as [[m|e] w1];
      [| cbn [fst] in *; intros [= ->]; now apply Hm].
    cbn [fst]. unfold make_naive. destruct (S3.meta_LastModified m); discriminate.
  - unfold get_modified_time, bind, lift, ret.
    destruct (meta name w) as [[m|e] w1];
      [| cbn [fst] in *; intros [= ->]; now apply Hm].
    destruct (USE_TZ settings); [discriminate |].
    cbn [fst]. unfold make_naive. destruct (S3.meta_LastModified m); discriminate.
Qed.


(** *** What [exists] answers *)

Lemma directory_probe_answered (w : world) :
  no_fault 1 (faults w) = true ->
  directory_probe w =
  (Return (bool_decide (objects w ≠ ∅)),
   S3.sent (ListObjects (AWS_S3_BUCKET_NAME settings) None None None) w).
Proof.
  unfold directory_probe, no_fault.
  destruct (faults w) as [|[ex|] f]; simpl; [reflexivity | discriminate | reflexivity].
Qed.

(** The key of a name is empty for the empty name and for the
    separator alone, and for no other name. *)
Lemma get_key_name_empty (name : string) :
  _get_key_name name = "" <-> name = "" \/ name = "/".
Proof.
  unfold _get_key_name. split.
  - destruct (Py.startswith name "/") eqn:Hs.
    + apply startswith_sep_inv in Hs as [s ->]. cbn [Py.slice_from].
      intros ->. now right.
    + intros ->. now left.
  - intros [-> | ->]; reflexivity.
Qed.

(** X13: when the store answers, [exists] tells whether the bucket is
    empty, and nothing about the name: for every name but the empty
    one, stored or not, ending with the separator or not, the answer is
    true as soon as the bucket holds any object, and false on an empty
    bucket. *)
Theorem exists_is_bucket_not_empty (name : string) (w : world) :
  name <> "" ->
  no_fault 2 (faults w) = true ->
  fst <$> exists_ 2 name w = Some (Return (bool_decide (objects w ≠ ∅))).
Proof.
  intros Hn Hf. apply no_fault_S in Hf as [H1 H2].
  destruct (Py.endswith name "/") eqn:He.
  - rewrite (exists_directory 1 name w He), (directory_probe_answered w H1).
    reflexivity.
  - assert (Hkey : _get_key_name name <> "").
    { intros E. apply get_key_name_empty in E as [E | E]; [easy |].
      rewrite E in He. discriminate. }
    rewrite (exists_file 0 name w He).
    destruct (objects w !! _get_key_name name) as [o|] eqn:Ho.
    + rewrite (meta_stored name o w Hkey H1 Ho).
      cbn [fmap option_fmap option_map fst].
      do 2 f_equal. symmetry. apply bool_decide_eq_true.
      intros E. rewrite E, lookup_empty in Ho. discriminate.
    + rewrite (meta_missing name w Hkey H1 Ho).
      rewrite (directory_probe_answered (S3.sent _ w) H2). reflexivity.
Qed.

(** *** Operations that only read *)

Lemma read_only_ret {A} (a : A) : read_only (ret a).
Proof. intros w. reflexivity. Qed.

Lemma read_only_raise {A} (e : exn) : read_only (@raise A e).
Proof. intros w. reflexivity. Qed.

Lemma read_only_lift {A} (r : result A) : read_only (lift r).
Proof. intros w. reflexivity. Qed.

Lemma read_only_bind {A B} (m : M A) (k : A -> M B) :
  read_only m -> (forall a, read_only (k a)) -> read_only (bind m k).
Proof.
  intros Hm Hk w. unfold bind. specialize (Hm w).
  destruct (m w) as [[a|e] w1]; cbn [snd] in *; [| exact Hm].
  now rewrite (Hk a w1).
Qed.

Lemma read_only_call {A} (r : request) (serve : world -> result A * world) :
  (forall w, objects (snd (serve w)) = objects w) -> read_only (S3.call r serve).
Proof.
  intros Hs w. unfold S3.call.
  destruct (head (faults w)) as [[ex|]|]; [reflexivity | |]; now rewrite Hs.
Qed.

Lemma read_only_wrap_errors {A} (func : string -> M A) (name : string) :
  read_only (func name) -> read_only (_wrap_errors func name).
Proof.
  intros Hf w. unfold _wrap_errors. specialize (Hf w).
  now destruct (func name w) as [[a|[ex|m|m|m|m]] w1].
Qed.

Lemma read_only_on_open_file {A} (h : nat) (op : temp_file -> A * temp_file) :
  read_only (on_open_file h op).
Proof.
  intros w. unfold on_open_file.
  destruct (temp_files w !! h) as [t|]; [| reflexivity].
  destruct (closed t); [reflexivity |]. now destruct (op t).
Qed.

Lemma read_only_with_key {A} (k : string) (send : M A) :
  read_only send -> read_only (S3.with_key k send).
Proof.
  intros Hs. unfold S3.with_key.
  destruct (String.eqb k ""); [apply read_only_raise | exact Hs].
Qed.

Lemma read_only_get_object (b k : string) : read_only (S3.get_object b k).
Proof.
  apply read_only_with_key, read_only_call. intros w. now destruct (objects w !! k).
Qed.

Lemma read_only_head_object (b k : string) : read_only (S3.head_object b k).
Proof.
  apply read_only_with_key, read_only_call. intros w. now destruct (objects w !! k).
Qed.

Lemma read_only_open (name mode : string) : read_only (_open name mode).
Proof.
  apply read_only_wrap_errors.
  destruct (negb (String.eqb mode "rb")); [apply read_only_raise |].
  unfold _object_params.
  apply read_only_bind; [apply read_only_get_object | intros obj].
  apply read_only_bind; [intros w; reflexivity | intros h].
  apply read_only_bind; [apply read_only_on_open_file | intros _].
  apply read_only_bind; [apply read_only_on_open_file | intros _].
  apply read_only_ret.
Qed.

Lemma read_only_meta (name : string) : read_only (meta name).
Proof. apply read_only_wrap_errors, read_only_head_object. Qed.

Lemma read_only_append_relative (path : string) (entries : list string) :
  forall out, read_only (append_relative path entries out).
Proof.
  induction entries as [|e entries IH]; intros out; cbn [append_relative].
  - apply read_only_ret.
  - apply read_only_bind; [| intros r; apply IH].
    unfold relative. destruct (posixpath.relpath cwd e path);
      [apply read_only_ret | apply read_only_raise].
Qed.

Lemma read_only_listdir_pages (path : string) (pages : list (list S3.entry)) :
  forall marker acc, read_only (listdir_pages path marker pages acc).
Proof.
  induction pages as [|this rest IH]; intros marker acc; cbn [listdir_pages].
  - apply read_only_ret.
  - apply read_only_bind; [apply read_only_call; reflexivity | intros p].
    apply read_only_bind; [| intros acc'; apply IH].
    unfold listdir_page. destruct acc as [dirs files].
    apply read_only_bind; [apply read_only_append_relative | intros fs].
    apply read_only_bind; [apply read_only_append_relative | intros ds].
    apply read_only_ret.
Qed.

Lemma read_only_exists (fuel : nat) :
  forall (name : string) (w : world) (r : result bool * world),
    exists_ fuel name w = Some r -> objects (snd r) = objects w.
Proof.
  induction fuel as [|fuel IH]; intros name w r; [discriminate |].
  rewrite exists_unfold. destruct (Py.endswith name "/").
  - intros [= <-].
    apply (read_only_bind (S3.list_objects (AWS_S3_BUCKET_NAME settings) None None)).
    + apply read_only_call. reflexivity.
    + intros p. apply read_only_ret.
  - pose proof (read_only_meta name w) as Hm.
    destruct (meta name w) as [[m|[ex|msg|msg|msg|msg]] w1]; cbn [snd] in Hm.
    + intros [= <-]. exact Hm.
    + intros [= <-]. exact Hm.
    + intros H. rewrite (IH _ _ _ H). exact Hm.
    + intros [= <-]. exact Hm.
    + intros [= <-]. exact Hm.
    + intros [= <-]. exact Hm.
Qed.

(** X14: reading never writes.  Whatever the store does, [_open],
    [meta], [size], the timestamp accessors, [listdir] and [exists]
    leave every object of the bucket as it was. *)
Theorem readers_leave_the_bucket (fuel : nat) (name mode : string) (w : world) :
  objects (snd (_open name mode w)) = objects w
  /\ objects (snd (meta name w)) = objects w
  /\ objects (snd (size name w)) = objects w
  /\ objects (snd (modified_time name w)) = objects w
  /\ objects (snd (get_modified_time name w)) = objects w
  /\ objects (snd (listdir name w)) = objects w
  /\ (forall r, exists_ fuel name w = Some r -> objects (snd r) = objects w).
Proof.
  split; [apply read_only_open |]. split; [apply read_only_meta |].
  split.
  { apply read_only_bind; [apply read_only_meta | intros m; apply read_only_ret]. }
  split.
  { apply read_only_bind; [apply read_only_meta | intros m; apply read_only_lift]. }
  split.
  { apply read_only_bind; [apply read_only_meta | intros m].
    destruct (USE_TZ settings); [apply read_only_ret | apply read_only_lift]. }
  split; [| apply read_only_exists].
  unfold listdir. apply read_only_listdir_pages.
Qed.

(** *** What a listing holds *)

Local Ltac propositional :=
  try clear force_bytes; try clear force_text; try clear repr;
  try clear guess_type; try clear cwd; try clear settings;
  intuition congruence.

Lemma In_insert_key (x k : string) (l : list string) :
  In x (S3.insert_key k l) <-> x = k \/ In x l.
Proof.
  induction l as [|y l IH]; simpl.
  - propositional.
  - destruct (String.leb k y); simpl; [propositional |].
    rewrite IH. propositional.
Qed.

Lemma In_sort_keys (x : string) (l : list string) :
  In x (S3.sort_keys l) <-> In x l.
Proof.
  induction l as [|k l IH]; simpl; [reflexivity |].
  rewrite In_insert_key, IH. propositional.
Qed.

Lemma In_keys (key : string) (o : gmap string s3_object) :
  In key (map fst (map_to_list o)) <-> is_Some (o !! key).
Proof.
  rewrite in_map_iff. split.
  - intros ([k v] & <- & H). apply list_elem_of_In, elem_of_map_to_list in H. eauto.
  - intros [v H]. exists (key, v). split; [reflexivity |].
    now apply list_elem_of_In, elem_of_map_to_list.
Qed.

Lemma In_add_entry (x e : S3.entry) (l : list S3.entry) :
  In x (S3.add_entry e l) <-> x = e \/ In x l.
Proof.
  unfold S3.add_entry. destruct e as [k|p]; [simpl; propositional |].
  destruct l as [|[k|q] l]; try (simpl; propositional).
  destruct (String.eqb_spec p q) as [->|Hne]; simpl; propositional.
Qed.

Lemma In_fold_add_entry (x : S3.entry) (l : list S3.entry) :
  In x (fold_right S3.add_entry [] l) <-> In x l.
Proof.
  induction l as [|e l IH]; simpl; [reflexivity |].
  rewrite In_add_entry, IH. propositional.
Qed.

(** The entries of a listing are the classes of the stored keys that
    start with the prefix. *)
Lemma In_listing (e : S3.entry) (prefix : string) (delimiter : option string)
    (o : gmap string s3_object) :
  In e (S3.listing prefix delimiter o) <->
  exists key, is_Some (o !! key) /\ Py.startswith key prefix = true
              /\ S3.classify prefix delimiter key = e.
Proof.
  unfold S3.listing. rewrite In_fold_add_entry, in_map_iff. split.
  - intros (key & <- & H). apply filter_In in H as [H Hp].
    apply In_sort_keys, In_keys in H. eauto.
  - intros (key & Hk & Hp & <-). exists key. split; [reflexivity |].
    apply filter_In. split; [| exact Hp]. now apply In_sort_keys, In_keys.
Qed.

Lemma In_contents_of (k : string) (l : list S3.entry) :
  In k (S3.contents_of l) <-> In (S3.Content k) l.
Proof.
  unfold S3.contents_of. rewrite <- !list_elem_of_In, list_elem_of_omap. split.
  - intros ([k'|p] & H & [= <-]). exact H.
  - intros H. exists (S3.Content k). auto.
Qed.

Lemma In_common_prefixes_of (p : string) (l : list S3.entry) :
  In p (S3.common_prefixes_of l) <-> In (S3.CommonPrefix p) l.
Proof.
  unfold S3.common_prefixes_of. rewrite <- !list_elem_of_In, list_elem_of_omap. split.
  - intros ([k|p'] & H & [= <-]). exact H.
  - intros H. exists (S3.CommonPrefix p). auto.
Qed.

Lemma relativize_In (prefix : string) (names rs : list string) :
  relativize prefix names = Some rs ->
  (forall n, In n names ->
             exists r, posixpath.relpath cwd n prefix = Some r /\ In r rs)
  /\ (forall r, In r rs ->
                exists n, In n names /\ posixpath.relpath cwd n prefix = Some r).
Proof.
  revert rs. induction names as [|x names IH]; intros rs; simpl.
  - intros [= <-]. split; intros ? [].
  - destruct (posixpath.relpath cwd x prefix) as [r|] eqn:Er; [| discriminate].
    destruct (relativize prefix names) as [rs'|]; [| discriminate].
    intros [= <-]. destruct (IH rs' eq_refl) as [IH1 IH2]. split.
    + intros n [<- | Hn]; [exists r; simpl; auto |].
      destruct (IH1 n Hn) as (r' & Hr & Hin). exists r'. simpl. auto.
    + intros r' [<- | Hr]; [exists x; auto |].
      destruct (IH2 r' Hr) as (n & Hn & Hrel). exists n. auto.
Qed.

(** *** How keys are classified *)

Lemma startswith_app_self (p r : string) : Py.startswith (p +:+ r) p = true.
Proof.
  induction p as [|a p IH]; [apply startswith_empty |].
  now rewrite append_cons, startswith_cons, Ascii.eqb_refl, IH.
Qed.

Lemma slice_from_app (p r : string) :
  Py.slice_from (String.length p) (p +:+ r) = r.
Proof. induction p as [|a p IH]; [reflexivity | exact IH]. Qed.

Lemma prefix_sep_cons (b : ascii) (s : string) :
  String.prefix "/" (String b s) = Ascii.eqb b "/".
Proof.
  cbn [String.prefix]. destruct (ascii_dec "/" b) as [<-|Hne].
  - now destruct s.
  - symmetry. apply Ascii.eqb_neq. congruence.
Qed.

Lemma index_cons (b : ascii) (s : string) :
  String.index 0 "/" (String b s) =
  if Ascii.eqb b "/" then Some 0
  else match String.index 0 "/" s with
       | Some n => Some (S n)
       | None => None
       end.
Proof.
  change (String.index 0 "/" (String b s))
    with (if String.prefix "/" (String b s) then Some 0
          else match String.index 0 "/" s with
               | Some n => Some (S n)
               | None => None
               end).
  now rewrite prefix_sep_cons.
Qed.

Lemma index_slashfree (n : string) :
  slashfree n = true -> String.index 0 "/" n = None.
Proof.
  induction n as [|b n IH]; [reflexivity |].
  cbn [slashfree]. intros H. apply andb_true_iff in H as [Hb Hn].
  apply negb_true_iff in Hb. now rewrite index_cons, Hb, (IH Hn).
Qed.

Lemma index_first_sep (d rest : string) :
  slashfree d = true ->
  String.index 0 "/" (d +:+ String "/" rest) = Some (String.length d).
Proof.
  induction d as [|b d IH].
  - intros _. rewrite append_nil_l, index_cons. reflexivity.
  - cbn [slashfree]. intros H. apply andb_true_iff in H as [Hb Hd].
    apply negb_true_iff in Hb.
    now rewrite append_cons, index_cons, Hb, (IH Hd).
Qed.

Lemma substring_app_sep (d rest : string) :
  substring 0 (String.length d + 1) (d +:+ String "/" rest) = d +:+ "/".
Proof.
  induction d as [|b d IH].
  - rewrite !append_nil_l. cbn. now destruct rest.
  - rewrite !append_cons. cbn [String.length Nat.add substring]. now rewrite IH.
Qed.

(** Under [prefix], a key that goes on without a separator is a
    content, and one that goes on with [d/] is rolled up into
    [prefix d/]. *)
Lemma classify_content (prefix n : string) :
  slashfree n = true ->
  S3.classify prefix (Some "/") (prefix +:+ n) = S3.Content (prefix +:+ n).
Proof.
  intros Hn. unfold S3.classify. now rewrite slice_from_app, index_slashfree.
Qed.

Lemma classify_common_prefix (prefix d rest : string) :
  slashfree d = true ->
  S3.classify prefix (Some "/") (prefix +:+ d +:+ String "/" rest)
  = S3.CommonPrefix (prefix +:+ d +:+ "/").
Proof.
  intros Hd. unfold S3.classify.
  rewrite slice_from_app, (index_first_sep d rest Hd).
  change (String.length "/") with 1. now rewrite substring_app_sep.
Qed.

(** *** [posixpath.relpath] below any prefix *)

Lemma plain_slashfree (n : string) : plain n = true -> slashfree n = true.
Proof.
  unfold plain. intros H. apply andb_true_iff in H as [H _].
  apply andb_true_iff in H as [H _]. now apply andb_true_iff in H as [H _].
Qed.

Lemma plain_not_empty (n : string) : plain n = true -> n <> "".
Proof. intros H ->. discriminate. Qed.

Lemma components_plain (n : string) (k : nat) (comps : list string) :
  plain n = true ->
  fold_left (posixpath.normpath_step k) (Py.split "/" n) comps = comps ++ [n].
Proof.
  intros Hp. rewrite (split_slashfree n (plain_slashfree n Hp)).
  cbn [fold_left]. now apply normpath_step_plain.
Qed.

Lemma components_plain_sep (n : string) (k : nat) (comps : list string) :
  plain n = true ->
  fold_left (posixpath.normpath_step k) (Py.split "/" (n +:+ "/")) comps
  = comps ++ [n].
Proof.
  intros Hp. change (n +:+ "/") with (n +:+ String "/" "").
  rewrite split_app_sep, (split_slashfree n (plain_slashfree n Hp)).
  cbn [Py.split app fold_left].
  rewrite (normpath_step_plain k comps n Hp). reflexivity.
Qed.

Lemma plain_not_absolute (n : string) :
  plain n = true ->
  Py.startswith n "/" = false /\ Py.startswith (n +:+ "/") "/" = false.
Proof.
  intros Hp. pose proof (slashfree_not_absolute n (plain_slashfree n Hp)) as H.
  split; [exact H |]. destruct n as [|a n]; [discriminate |].
  rewrite append_cons, startswith_cons in *. exact H.
Qed.

Lemma startswith_sep_under (p x : string) :
  Py.startswith (p +:+ String "/" x) "/" = Py.startswith (p +:+ "/") "/".
Proof.
  destruct p as [|a p]; [reflexivity |].
  now rewrite !append_cons, !startswith_cons, !startswith_empty.
Qed.

(** The two paths [relpath] compares, for a name below [p/]. *)
Lemma abspath_forms_under (p : string) :
  posixpath.isabs cwd = true ->
  exists c,
    Py.startswith (c +:+ "/") "/" = true
    /\ forall x, posixpath.abspath cwd (p +:+ String "/" x)
                 = posixpath.normpath (c +:+ String "/" x).
Proof.
  unfold posixpath.isabs, posixpath.sep. intros Habs.
  destruct (Py.startswith (p +:+ "/") "/") eqn:Hp.
  - exists p. split; [exact Hp |]. intros x.
    unfold posixpath.abspath, posixpath.isabs, posixpath.sep.
    now rewrite startswith_sep_under, Hp.
  - assert (Hne : String.eqb cwd "" = false) by now destruct cwd.
    destruct (Py.endswith cwd "/") eqn:He.
    + exists (cwd +:+ p). split.
      * rewrite append_assoc. now apply startswith_append.
      * intros x. unfold posixpath.abspath, posixpath.isabs, posixpath.join2,
          posixpath.sep.
        now rewrite startswith_sep_under, Hp, He, orb_true_r, append_assoc.
    + exists (cwd +:+ String "/" p). split.
      * rewrite append_assoc. now apply startswith_append.
      * intros x. unfold posixpath.abspath, posixpath.isabs, posixpath.join2,
          posixpath.sep.
        rewrite startswith_sep_under, Hp, He, Hne. cbn [orb].
        change ("/" +:+ (p +:+ String "/" x)) with (String "/" (p +:+ String "/" x)).
        now rewrite append_assoc, append_cons.
Qed.

Lemma relpath_under (p x name : string) :
  posixpath.isabs cwd = true ->
  Py.startswith x "/" = false ->
  (forall k comps,
      fold_left (posixpath.normpath_step k) (Py.split "/" x) comps
      = comps ++ [name]) ->
  posixpath.relpath cwd (p +:+ String "/" x) (p +:+ "/") = Some name.
Proof.
  intros Habs Hx Hfold.
  destruct (abspath_forms_under p Habs) as (c & Hc & Hp).
  unfold posixpath.relpath.
  assert (Hne : String.eqb (p +:+ String "/" x) "" = false) by now destruct p.
  rewrite Hne. change (p +:+ "/") with (p +:+ String "/" "").
  rewrite !Hp. change (c +:+ String "/" "") with (c +:+ "/").
  rewrite (components_below c x name Hc Hx Hfold).
  cbv zeta. rewrite commonprefix_len_app, Nat.sub_diag.
  change (List.skipn ?n ?l) with (drop n l). rewrite drop_app_length.
  reflexivity.
Qed.

(** A path is [.] relative to itself. *)
Lemma relpath_same (p : string) :
  p <> "" -> posixpath.relpath cwd p p = Some ".".
Proof.
  intros Hne. unfold posixpath.relpath. apply String.eqb_neq in Hne. rewrite Hne.
  cbv zeta.
  set (l := List.filter posixpath.nonempty (Py.split "/" (posixpath.abspath cwd p))).
  assert (E : posixpath.commonprefix_len l l = length l).
  { pose proof (commonprefix_len_app l []) as H. now rewrite app_nil_r in H. }
  rewrite E, Nat.sub_diag.
  change (List.skipn (length l) l) with (drop (length l) l). rewrite drop_all.
  reflexivity.
Qed.

(** Below the prefix of any directory, a plain name, with or without
    a trailing separator, is relative to the prefix under its own
    name. *)
Lemma relpath_in_prefix (path n : string) :
  posixpath.isabs cwd = true -> plain n = true ->
  posixpath.relpath cwd (listdir_prefix path +:+ n) (listdir_prefix path) = Some n
  /\ posixpath.relpath cwd (listdir_prefix path +:+ n +:+ "/") (listdir_prefix path)
     = Some n.
Proof.
  intros Habs Hp. destruct (plain_not_absolute n Hp) as [Hn Hns].
  unfold listdir_prefix. cbv zeta.
  destruct (String.eqb (_get_key_name path) ".").
  - rewrite !append_nil_l. now apply relpath_child.
  - rewrite !append_assoc.
    change ("/" +:+ n +:+ "/") with (String "/" (n +:+ "/")).
    change ("/" +:+ n) with (String "/" n).
    split; apply relpath_under; try assumption; intros k comps.
    + now apply components_plain.
    + now apply components_plain_sep.
Qed.

(** *** What [listdir] returns *)

Lemma listing_empty (prefix : string) (delimiter : option string) :
  S3.listing prefix delimiter ∅ = [].
Proof. unfold S3.listing. now rewrite map_to_list_empty. Qed.

(** X15: on an empty bucket, [listdir] of any path sends one listing
    request for the prefix of the path and returns no directory and no
    file. *)
Theorem listdir_empty_bucket (path : string) (w : world) :
  objects w = ∅ ->
  no_fault 1 (faults w) = true ->
  listdir path w =
  (Return ([], []),
   S3.sent (ListObjects (AWS_S3_BUCKET_NAME settings)
              (Some (listdir_prefix path)) (Some "/") None) w).
Proof.
  intros Ho Hf. unfold listdir. fold (listdir_prefix path).
  unfold S3.pages_of. rewrite Ho, listing_empty.
  cbn [length S3.chunks listdir_pages]. unfold bind at 1. unfold S3.next_page.
  rewrite call_answered by exact Hf. reflexivity.
Qed.

(** What [listdir] finds at the first level below the prefix. *)
Lemma listdir_finds (path : string) (w : world) (dirs files : list string) :
  let prefix := listdir_prefix path in
  let l := S3.listing prefix (Some "/") (objects w) in
  posixpath.isabs cwd = true ->
  faults w = [] ->
  relativize prefix (S3.common_prefixes_of l) = Some dirs ->
  relativize prefix (S3.contents_of l) = Some files ->
  fst (listdir path w) = Return (dirs, files)
  /\ (forall n, plain n = true -> is_Some (objects w !! (prefix +:+ n)) ->
                In n files)
  /\ (forall d rest, plain d = true ->
                     is_Some (objects w !! (prefix +:+ d +:+ String "/" rest)) ->
                     In d dirs).
Proof.
  intros prefix l Habs Hw Hd Hf.
  split; [now rewrite (listdir_ok path w dirs files Hw Hd Hf) |].
  destruct (relativize_In _ _ _ Hd) as [Hdirs _].
  destruct (relativize_In _ _ _ Hf) as [Hfiles _].
  split.
  - intros n Hn Ho.
    destruct (Hfiles (prefix +:+ n)) as (r & Hr & Hin).
    { apply In_contents_of, In_listing. exists (prefix +:+ n).
      split; [exact Ho |]. split; [apply startswith_app_self |].
      apply classify_content, plain_slashfree, Hn. }
    destruct (relpath_in_prefix path n Habs Hn) as [E _].
    fold prefix in E. rewrite E in Hr. now injection Hr as <-.
  - intros d rest Hp Ho.
    destruct (Hdirs (prefix +:+ d +:+ "/")) as (r & Hr & Hin).
    { apply In_common_prefixes_of, In_listing.
      exists (prefix +:+ d +:+ String "/" rest).
      split; [exact Ho |]. split; [apply startswith_app_self |].
      apply classify_common_prefix, plain_slashfree, Hp. }
    destruct (relpath_in_prefix path d Habs Hp) as [_ E].
    fold prefix in E. rewrite E in Hr. now injection Hr as <-.
Qed.

(** X16: [listdir] misses nothing at the first level.  From an
    absolute working directory and with a store that answers, every
    stored key that is the prefix followed by a plain name is among the
    files under that name, and every stored key that goes on after a
    plain name with a separator has that name among the directories. *)
Theorem listdir_complete (path : string) (w : world) (dirs files : list string) :
  let prefix := listdir_prefix path in
  let l := S3.listing prefix (Some "/") (objects w) in
  posixpath.isabs cwd = true ->
  faults w = [] ->
  relativize prefix (S3.common_prefixes_of l) = Some dirs ->
  relativize prefix (S3.contents_of l) = Some files ->
  fst (listdir path w) = Return (dirs, files)
  /\ (forall n, plain n = true -> is_Some (objects w !! (prefix +:+ n)) ->
                In n files)
  /\ (forall d rest, plain d = true ->
                     is_Some (objects w !! (prefix +:+ d +:+ String "/" rest)) ->
                     In d dirs).
Proof. exact (listdir_finds path w dirs files). Qed.

(** X17: [listdir] invents nothing.  With a store that answers, every
    file it returns is the relative path of a stored key that starts
    with the prefix, and every directory comes from a stored key that
    starts with the prefix. *)
Theorem listdir_sound (path : string) (w : world) (dirs files : list string) :
  let prefix := listdir_prefix path in
  let l := S3.listing prefix (Some "/") (objects w) in
  faults w = [] ->
  relativize prefix (S3.common_prefixes_of l) = Some dirs ->
  relativize prefix (S3.contents_of l) = Some files ->
  fst (listdir path w) = Return (dirs, files)
  /\ (forall f, In f files ->
        exists key, is_Some (objects w !! key)
                    /\ Py.startswith key prefix = true
                    /\ posixpath.relpath cwd key prefix = Some f)
  /\ (forall d, In d dirs ->
        exists key p, is_Some (objects w !! key)
                      /\ Py.startswith key prefix = true
                      /\ S3.classify prefix (Some "/") key = S3.CommonPrefix p
                      /\ posixpath.relpath cwd p prefix = Some d).
Proof.
  intros prefix l Hw Hd Hf.
  split; [now rewrite (listdir_ok path w dirs files Hw Hd Hf) |].
  destruct (relativize_In _ _ _ Hd) as [_ Hdirs].
  destruct (relativize_In _ _ _ Hf) as [_ Hfiles].
  split.
  - intros f Hin. destruct (Hfiles f Hin) as (n & Hn & Hr).
    apply In_contents_of, In_listing in Hn as (key & Ho & Hp & Hc).
    exists key. split; [exact Ho |]. split; [exact Hp |].
    unfold S3.classify in Hc.
    destruct (String.index 0 "/" (Py.slice_from (String.length prefix) key));
      [discriminate |].
    now injection Hc as ->.
  - intros d Hin. destruct (Hdirs d Hin) as (p & Hn & Hr).
    apply In_common_prefixes_of, In_listing in Hn as (key & Ho & Hp & Hc).
    exists key, p. auto.
Qed.

(** X18: an object stored under the prefix itself, the placeholder of
    a directory, is listed among the files of that directory as [.]. *)
Theorem listdir_lists_placeholder (path : string) (w : world)
    (dirs files : list string) :
  let prefix := listdir_prefix path in
  let l := S3.listing prefix (Some "/") (objects w) in
  faults w = [] ->
  relativize prefix (S3.common_prefixes_of l) = Some dirs ->
  relativize prefix (S3.contents_of l) = Some files ->
  is_Some (objects w !! prefix) ->
  fst (listdir path w) = Return (dirs, files) /\ In "." files.
Proof.
  intros prefix l Hw Hd Hf Ho.
  split; [now rewrite (listdir_ok path w dirs files Hw Hd Hf) |].
  destruct (relativize_In _ _ _ Hf) as [Hfiles _].
  destruct (Hfiles prefix) as (r & Hr & Hin).
  { apply In_contents_of, In_listing. exists prefix.
    split; [exact Ho |]. split.
    - rewrite <- (append_nil_r prefix) at 1. apply startswith_app_self.
    - rewrite <- (append_nil_r prefix) at 2 3. now apply classify_content. }
  assert (Hne : prefix <> "").
  { intros E. rewrite E in Hr. discriminate. }
  rewrite (relpath_same prefix Hne) in Hr. now injection Hr as <-.
Qed.

(** *** Temporary files *)

Lemma fault_cases (w : world) :
  no_fault 1 (faults w) = true
  \/ (exists ex f, faults w = Some (Refused ex) :: f)
  \/ (exists msg f, faults w = Some (Broken msg) :: f).
Proof.
  unfold no_fault. destruct (faults w) as [|[[ex|msg]|] f]; simpl; eauto 6.
Qed.

(** X19: the temporary files of a save under a key that is not empty
    and that the store accepts.  For bytes none is created; for a text
    exactly one, which holds the uploaded bytes and is closed when
    [_save] returns; the files that were there before are as they
    were. *)
Theorem save_temporary_files (name : string) (content : File) (w : world) :
  _get_key_name name <> "" ->
  no_fault 1 (faults w) = true ->
  temp_files (snd (_save name content w))
  = temp_files w
    ++ match file content with
       | BytesIO _ => []
       | TextIO text =>
           [{| buffer := concat (map force_bytes (text_chunks text));
               position := length (concat (map force_bytes (text_chunks text)));
               closed := true |}]
       end.
Proof.
  intros Hkey Hf.
  destruct (save_stores name content w Hkey Hf) as (_ & _ & _ & _ & ->).
  now destruct content as [[data|text] pos].
Qed.

(** X20: [_open] hands out a fresh file and touches no other.  In any
    world and for any mode, every temporary file that was there is as
    it was, and a file that is returned is a new one, under the name it
    was asked for. *)
Theorem open_hands_out_fresh_file (name mode : string) (w : world) :
  (forall h t, temp_files w !! h = Some t ->
               temp_files (snd (_open name mode w)) !! h = Some t)
  /\ (forall f, fst (_open name mode w) = Return f ->
                S3File_file f = length (temp_files w)
                /\ S3File_name f = name
                /\ temp_files w !! S3File_file f = None
                /\ is_Some (temp_files (snd (_open name mode w)) !! S3File_file f)).
Proof.
  destruct (String.eqb_spec mode "rb") as [->|Hm].
  - destruct (String.eqb_spec (_get_key_name name) "") as [Hkey|Hkey].
    { rewrite (open_invalid_key name w Hkey). split; [auto | discriminate]. }
    destruct (fault_cases w) as [Hf | [(ex & f & Hf) | (msg & f & Hf)]].
    + destruct (objects w !! _get_key_name name) as [o|] eqn:Ho.
      * rewrite (open_stored name o w Hkey Hf Ho).
        cbn [fst snd temp_files with_temp_files].
        split.
        -- intros h t Hh. now apply lookup_app_l_Some.
        -- intros f [= <-]. cbn [S3File_file S3File_name].
           split; [reflexivity |]. split; [reflexivity |].
           split; [now apply lookup_ge_None |].
           rewrite list_lookup_middle by reflexivity. eauto.
      * rewrite (open_missing name w Hkey Hf Ho). split; [auto | discriminate].
    + rewrite (open_refused name w ex f Hkey Hf). split; [auto | discriminate].
    + rewrite (open_broken name w msg f Hkey Hf). split; [auto | discriminate].
  - assert (E : _open name mode w =
                (Raise (ValueError "S3 files can only be opened in read-only mode"), w)).
    { unfold _open, _wrap_errors. apply String.eqb_neq in Hm. now rewrite Hm. }
    rewrite E. split; [auto | discriminate].
Qed.

(** *** Reopening an [S3File] *)

(** X21: [S3File.open] on a file that is not closed only rewinds it:
    whatever the mode, no request is sent and nothing is raised.  On a
    closed file it opens the name again: a mode other than ["rb"] is
    refused without a request; with ["rb"], a key that is not empty and
    a store that answers and holds the key, the file gets a fresh
    buffer with the stored body, rewound, and keeps its name; with
    ["rb"] and an empty key the client refuses the request before it
    is sent. *)
Theorem S3File_open_reopens (f : S3File) :
  (forall mode w t,
      temp_files w !! S3File_file f = Some t -> closed t = false ->
      S3File_open f mode w =
      (Return f,
       with_temp_files
         (<[S3File_file f := {| buffer := buffer t; position := 0;
                                closed := false |}]> (temp_files w)) w))
  /\ (forall mode w,
        temp_closed (S3File_file f) w = true -> mode <> "rb" ->
        S3File_open f mode w =
        (Raise (ValueError "S3 files can only be opened in read-only mode"), w))
  /\ (forall w o,
        temp_closed (S3File_file f) w = true ->
        _get_key_name (S3File_name f) <> "" ->
        no_fault 1 (faults w) = true ->
        objects w !! _get_key_name (S3File_name f) = Some o ->
        exists w',
          S3File_open f "rb" w =
          (Return {| S3File_file := length (temp_files w);
                     S3File_name := S3File_name f |}, w')
          /\ temp_files w'
             = temp_files w ++ [{| buffer := Body o; position := 0;
                                   closed := false |}]
          /\ requests w'
             = requests w ++ [GetObject (AWS_S3_BUCKET_NAME settings)
                                (_get_key_name (S3File_name f))])
  /\ (forall w,
        temp_closed (S3File_file f) w = true ->
        _get_key_name (S3File_name f) = "" ->
        S3File_open f "rb" w = (Raise S3.invalid_key, w)).
Proof.
  split; [| split; [| split]].
  - intros mode w t Ht Hc. unfold S3File_open, temp_closed. rewrite Ht, Hc.
    unfold bind, temp_seek, on_open_file. rewrite Ht, Hc. reflexivity.
  - intros mode w Hc Hm. unfold S3File_open. rewrite Hc. unfold bind.
    assert (E : _open (S3File_name f) mode w =
                (Raise (ValueError "S3 files can only be opened in read-only mode"), w)).
    { unfold _open, _wrap_errors. apply String.eqb_neq in Hm. now rewrite Hm. }
    now rewrite E.
  - intros w o Hc Hkey Hf Ho. unfold S3File_open. rewrite Hc. unfold bind.
    rewrite (open_stored (S3File_name f) o w Hkey Hf Ho). cbn [S3File_file].
    unfold temp_seek.
    set (w1 := with_temp_files _ _).
    rewrite (on_open_file_last _ w1 (temp_files w)
               {| buffer := Body o; position := 0; closed := false |}
               eq_refl eq_refl).
    eexists. split; [reflexivity |]. split; reflexivity.
  - intros w Hc Hkey. unfold S3File_open. rewrite Hc. unfold bind.
    now rewrite (open_invalid_key (S3File_name f) w Hkey).
Qed.

(** *** Saving, then listing *)

(** X22: what is saved shows up in the listing of the root.  After a
    save under a plain name that the store accepts, [listdir(".")] from
    an absolute working directory has the name among its files; after a
    save under a plain directory name followed by a separator and more,
    it has the directory name among its directories. *)
Theorem listdir_after_save (content : File) (w : world)
    (dirs files : list string) (name : string) :
  let w1 := snd (_save name content w) in
  let l := S3.listing "" (Some "/") (objects w1) in
  posixpath.isabs cwd = true ->
  faults w = [] ->
  relativize "" (S3.common_prefixes_of l) = Some dirs ->
  relativize "" (S3.contents_of l) = Some files ->
  fst (listdir "." w1) = Return (dirs, files)
  /\ (plain name = true -> In name files)
  /\ (forall d rest, plain d = true -> name = d +:+ String "/" rest ->
                     In d dirs).
Proof.
  intros w1 l Habs Hw Hd Hf.
  assert (H1 : no_fault 1 (faults w) = true) by now rewrite Hw.
  assert (Hw1 : faults w1 = []).
  { destruct (String.eqb_spec (_get_key_name name) "") as [Hkey|Hkey].
    - destruct (save_invalid_key_world name content w Hkey) as (_ & _ & _ & Hfs).
      fold w1 in Hfs. now rewrite Hfs.
    - destruct (save_stores name content w Hkey H1) as (_ & _ & _ & Hfs & _).
      fold w1 in Hfs. now rewrite Hfs, Hw. }
  destruct (listdir_finds "." w1 dirs files Habs Hw1 Hd Hf) as (Hr & Hfiles & Hdirs).
  change (listdir_prefix ".") with "" in Hfiles, Hdirs.
  split; [exact Hr |]. split.
  - intros Hp. apply Hfiles; [exact Hp |]. rewrite append_nil_l.
    destruct (plain_not_absolute name Hp) as [Hn _].
    assert (Hkey : _get_key_name name <> "").
    { rewrite (get_key_name_other name Hn). intros ->. discriminate. }
    destruct (save_stores name content w Hkey H1) as (_ & Ho & _).
    fold w1 in Ho. rewrite Ho.
    rewrite <- (get_key_name_other name Hn) at 1. rewrite lookup_insert_eq. eauto.
  - intros d rest Hp ->. apply (Hdirs d rest Hp). rewrite append_nil_l.
    destruct (plain_not_absolute d Hp) as [Hn _].
    assert (Hk : _get_key_name (d +:+ String "/" rest) = d +:+ String "/" rest).
    { apply get_key_name_other. destruct d as [|a d]; [discriminate |].
      rewrite append_cons, startswith_cons in *. exact Hn. }
    assert (Hkey : _get_key_name (d +:+ String "/" rest) <> "").
    { rewrite Hk. destruct d; discriminate. }
    destruct (save_stores (d +:+ String "/" rest) content w Hkey H1) as (_ & Ho & _).
    fold w1 in Ho. rewrite Ho, Hk, lookup_insert_eq. eauto.
Qed.

End S3Storage.

(** ** The statements at the demo deployment *)

Local Abbreviation open := (_open Demo.settings Demo.repr Demo.force_text).
Local Abbreviation save :=
  (_save Demo.settings Demo.guess_type Demo.repr Demo.force_text Demo.force_bytes).
Local Abbreviation stat := (meta Demo.settings Demo.repr Demo.force_text).
Local Abbreviation probe := (exists_ Demo.settings Demo.repr Demo.force_text).

(** C1 as stated fails: for the path [/] the key is empty, the client
    refuses the upload before any request is sent, [_save] raises its
    [ParamValidationError], nothing is stored, and [_open] raises the
    same; there is no round trip, although the store would answer. *)
Lemma save_open_no_round_trip_for_separator :
  no_fault 2 (faults Demo.empty) = true
  /\ _get_key_name "/" = ""
  /\ save "/" Demo.two_bytes Demo.empty = (Raise S3.invalid_key, Demo.empty)
  /\ open "/" "rb" Demo.empty = (Raise S3.invalid_key, Demo.empty)
  /\ ~ (exists (w1 w2 : world) (f : S3File),
          save "/" Demo.two_bytes Demo.empty = (Return "/", w1)
          /\ open "/" "rb" w1 = (Return f, w2)
          /\ fst (temp_read (S3File_file f) w2) = Return [Byte.x01; Byte.x02]).
Proof.
  split; [reflexivity |]. split; [reflexivity |].
  split; [vm_compute; reflexivity |]. split; [vm_compute; reflexivity |].
  intros (w1 & w2 & f & Hs & _). vm_compute in Hs. discriminate.
Qed.

(** C1, amended, at work: two bytes saved under [a.bin] from a file
    read to position 1, in an empty bucket. *)
Lemma save_open_round_trip_witness :
  _get_key_name "a.bin" <> ""
  /\ no_fault 2 (faults Demo.empty) = true
  /\ exists (w1 w2 : world) (f : S3File),
       save "a.bin" Demo.two_bytes Demo.empty = (Return "a.bin", w1)
       /\ open "a.bin" "rb" w1 = (Return f, w2)
       /\ S3File_name f = "a.bin"
       /\ temp_files w2 !! S3File_file f
          = Some {| buffer := [Byte.x01; Byte.x02]; position := 0;
                    closed := false |}
       /\ fst (temp_read (S3File_file f) w2) = Return [Byte.x01; Byte.x02].
Proof.
  split; [vm_compute; discriminate |]. split; [reflexivity |].
  apply (save_open_round_trip Demo.settings Demo.guess_type Demo.repr
           Demo.force_text Demo.force_bytes "a.bin" [Byte.x01; Byte.x02] 1
           Demo.empty).
  - vm_compute; discriminate.
  - reflexivity.
Defined.

(** C2 at work: a directory nobody has a key under exists as soon as
    the bucket is not empty. *)
Lemma exists_directory_probes_whole_bucket_witness :
  Py.endswith "any/nonexistent/dir/" "/" = true
  /\ probe 1 "any/nonexistent/dir/" Demo.stocked
     = Some (directory_probe Demo.settings Demo.stocked)
  /\ fst (directory_probe Demo.settings Demo.stocked) = Return true.
Proof.
  split; [reflexivity |]. split; [| vm_compute; reflexivity].
  exact (proj1 (exists_directory_probes_whole_bucket Demo.settings Demo.repr
                  Demo.force_text 0 "any/nonexistent/dir/" Demo.stocked eq_refl)).
Defined.

(** C3 as stated fails: [meta] fails because access is denied, which is
    no not-found error, and [exists] answers true instead of raising. *)
Lemma exists_swallows_access_denied :
  fst (stat "a.txt" (Demo.failing Demo.AccessDenied))
  = Raise (S3Error ("S3Storage error at 'a.txt': "
                    +:+ Demo.force_text Demo.AccessDenied))
  /\ fst <$> probe 2 "a.txt" (Demo.failing Demo.AccessDenied)
     = Some (Return true)
  /\ fst <$> probe 2 "a.txt" (Demo.failing Demo.AccessDenied)
     <> Some (Raise (S3Error ("S3Storage error at 'a.txt': "
                              +:+ Demo.force_text Demo.AccessDenied))).
Proof.
  split; [vm_compute; reflexivity |].
  split; [vm_compute; reflexivity | vm_compute; discriminate].
Qed.

(** C3, amended, at work on the same world. *)
Lemma exists_file_probe_witness :
  Py.endswith "a.txt" "/" = false
  /\ probe 2 "a.txt" (Demo.failing Demo.AccessDenied) =
     match stat "a.txt" (Demo.failing Demo.AccessDenied) with
     | (Return _, w') => Some (Return true, w')
     | (Raise (S3Error _), w') => probe 1 ("a.txt" +:+ "/") w'
     | (Raise e, w') => Some (Raise e, w')
     end.
Proof.
  split; [reflexivity |].
  exact (proj1 (exists_file_probe Demo.settings Demo.repr Demo.force_text 0
                  "a.txt" (Demo.failing Demo.AccessDenied) eq_refl)).
Defined.

(** What is no [S3Error] propagates: behind a connection that is down
    the [BotoCoreError] of the client comes out of [meta] and of
    [exists] as it is, and so does its [ParamValidationError] for the
    empty name. *)
Lemma exists_propagates_client_failures :
  fst (stat "a.txt" Demo.unreachable)
  = Raise (BotoCoreError "Could not connect to the endpoint URL")
  /\ fst <$> probe 2 "a.txt" Demo.unreachable
     = Some (Raise (BotoCoreError "Could not connect to the endpoint URL"))
  /\ fst (stat "" Demo.stocked) = Raise S3.invalid_key
  /\ probe 2 "" Demo.stocked = Some (Raise S3.invalid_key, Demo.stocked).
Proof. repeat split; vm_compute; reflexivity. Qed.

(** C4 fails on the code: the listing requests of [exists] and of
    [listdir] are sent outside [_wrap_errors], and the [ClientError] of
    the store reaches the caller as it is, where [meta] on the same
    world raises an [S3Error]. *)
Theorem exists_and_listdir_raise_client_error :
  fst <$> probe 1 "b/" (Demo.failing (Demo.ServiceUnavailable "ListObjects"))
  = Some (Raise (ClientError (Demo.ServiceUnavailable "ListObjects")))
  /\ fst (listdir Demo.settings Demo.cwd "b"
            (Demo.failing (Demo.ServiceUnavailable "ListObjects")))
     = Raise (ClientError (Demo.ServiceUnavailable "ListObjects"))
  /\ fst (stat "b/" (Demo.failing (Demo.ServiceUnavailable "ListObjects")))
     = Raise (S3Error ("S3Storage error at 'b/': "
                       +:+ Demo.force_text (Demo.ServiceUnavailable "ListObjects"))).
Proof. repeat split; vm_compute; reflexivity. Qed.

(** C5 at work: mode ["wb"]. *)
Lemma open_rejects_other_modes_witness :
  "wb" <> "rb"
  /\ open "a.txt" "wb" Demo.stocked
     = (Raise (ValueError "S3 files can only be opened in read-only mode"),
        Demo.stocked).
Proof.
  split; [discriminate |].
  refine (proj1 (open_rejects_other_modes Demo.settings Demo.repr
                   Demo.force_text "a.txt" "wb" Demo.stocked _)).
  discriminate.
Defined.

(** C6 fails on the code: the upload of a text fails, [_save] raises,
    and the temporary file it wrote the text to is still open; after an
    upload that succeeds it is closed. *)
Theorem save_leaves_buffer_open_on_failure :
  fst (save "notes.txt" Demo.hello
         (Demo.empty_failing (Demo.ServiceUnavailable "PutObject")))
  = Raise (S3Error ("S3Storage error at 'notes.txt': "
                    +:+ Demo.force_text (Demo.ServiceUnavailable "PutObject")))
  /\ temp_files (snd (save "notes.txt" Demo.hello
                        (Demo.empty_failing (Demo.ServiceUnavailable "PutObject"))))
     = [{| buffer := Demo.force_bytes "hello"; position := 5; closed := false |}]
  /\ fst (save "notes.txt" Demo.hello Demo.empty) = Return "notes.txt"
  /\ temp_files (snd (save "notes.txt" Demo.hello Demo.empty))
     = [{| buffer := Demo.force_bytes "hello"; position := 5; closed := true |}].
Proof. repeat split; vm_compute; reflexivity. Qed.

(** C7, amended, at work on a relative name. *)
Lemma get_key_name_strips_one_separator_witness :
  _get_key_name "media/a.txt" = "media/a.txt".
Proof.
  apply (proj1 (proj2 get_key_name_strips_one_separator)). reflexivity.
Defined.

(** C7 as stated fails: of two leading separators, each application
    removes one. *)
Lemma get_key_name_not_idempotent :
  _get_key_name (_get_key_name "//a.txt") <> _get_key_name "//a.txt".
Proof. discriminate. Qed.




(** ** The further properties at the demo deployment *)

Local Abbreviation remove := (delete Demo.settings Demo.repr Demo.force_text).
Local Abbreviation length_of := (size Demo.settings Demo.repr Demo.force_text).
Local Abbreviation ls := (listdir Demo.settings Demo.cwd).
Local Abbreviation reopen := (S3File_open Demo.settings Demo.repr Demo.force_text).

Lemma Demo_force_bytes_app (a b : string) :
  Demo.force_bytes (a +:+ b) = Demo.force_bytes a ++ Demo.force_bytes b.
Proof.
  unfold Demo.force_bytes. induction a as [|c a IH]; [reflexivity |].
  rewrite append_cons. cbn [list_ascii_of_string map app]. now rewrite IH.
Qed.

(** X1 at work. *)
Lemma save_text_stores_encoding_witness :
  Body <$> objects (snd (save "notes.txt" Demo.hello Demo.empty)) !! "notes.txt"
  = Some (Demo.force_bytes "hello").
Proof.
  exact (save_text_stores_encoding Demo.settings Demo.guess_type Demo.repr
           Demo.force_text Demo.force_bytes "notes.txt" "hello" 0 Demo.empty
           ltac:(vm_compute; discriminate) eq_refl Demo_force_bytes_app eq_refl).
Defined.

(** X2 at work: [notes.txt] is text, [a.bin] has no known type. *)
Lemma save_content_type_witness :
  no_fault 1 (faults Demo.empty) = true
  /\ exists o : s3_object,
       objects (snd (save "a.bin" Demo.two_bytes Demo.empty)) !! "a.bin" = Some o
       /\ ContentType o = "application/octet-stream".
Proof.
  split; [reflexivity |].
  destruct (save_content_type Demo.settings Demo.guess_type Demo.repr
              Demo.force_text Demo.force_bytes "a.bin" Demo.two_bytes Demo.empty
              ltac:(vm_compute; discriminate) eq_refl) as (o & Ho & _ & Hd).
  exists o. split; [exact Ho |]. apply Hd. left. reflexivity.
Defined.

(** X3 at work: saving over [a.txt] leaves [b/c.txt]. *)
Lemma save_replaces_only_its_key_witness :
  no_fault 1 (faults Demo.stocked) = true
  /\ Body <$> objects (snd (save "a.txt" Demo.two_bytes Demo.stocked)) !! "a.txt"
     = Some [Byte.x01; Byte.x02]
  /\ objects (snd (save "a.txt" Demo.two_bytes Demo.stocked)) !! "b/c.txt"
     = objects Demo.stocked !! "b/c.txt".
Proof.
  split; [reflexivity |].
  destruct (save_replaces_only_its_key Demo.settings Demo.guess_type Demo.repr
              Demo.force_text Demo.force_bytes "a.txt" Demo.two_bytes Demo.stocked
              ltac:(vm_compute; discriminate) eq_refl) as (_ & Hb & Ho & _).
  split; [exact Hb |]. apply Ho. discriminate.
Defined.

(** X4 at work: an upload the store refuses, and one the client
    refuses. *)
Lemma save_refused_writes_nothing_witness :
  faults (Demo.failing (Demo.ServiceUnavailable "PutObject"))
  = [Some (Refused (Demo.ServiceUnavailable "PutObject"))]
  /\ objects (snd (save "a.txt" Demo.hello
                     (Demo.failing (Demo.ServiceUnavailable "PutObject"))))
     = Demo.two_keys
  /\ _get_key_name "/" = ""
  /\ fst (save "/" Demo.hello Demo.stocked) = Raise S3.invalid_key
  /\ requests (snd (save "/" Demo.hello Demo.stocked)) = [].
Proof.
  split; [reflexivity |]. split.
  - exact (proj2 (proj1 (save_refused_writes_nothing Demo.settings
                           Demo.guess_type Demo.repr Demo.force_text
                           Demo.force_bytes "a.txt" Demo.hello
                           (Demo.failing (Demo.ServiceUnavailable "PutObject")))
                    (Demo.ServiceUnavailable "PutObject") []
                    ltac:(vm_compute; discriminate) eq_refl)).
  - split; [reflexivity |].
    destruct (proj2 (save_refused_writes_nothing Demo.settings Demo.guess_type
                       Demo.repr Demo.force_text Demo.force_bytes "/" Demo.hello
                       Demo.stocked) eq_refl) as (Hr & _ & Hq).
    split; [exact Hr | exact Hq].
Defined.

(** X5 at work. *)
Lemma open_missing_key_witness :
  objects Demo.stocked !! "missing.txt" = None
  /\ temp_files (snd (open "missing.txt" "rb" Demo.stocked)) = [].
Proof.
  split; [reflexivity |].
  exact (proj1 (proj2 (open_missing_key Demo.settings Demo.repr Demo.force_text
                         "missing.txt" Demo.stocked
                         ltac:(vm_compute; discriminate) eq_refl eq_refl))).
Defined.

(** X6 at work: saved as [/notes.txt], a text, and opened as
    [notes.txt]. *)
Lemma save_open_same_key_witness :
  exists (f : S3File) (w2 : world),
    open "notes.txt" "rb" (snd (save "/notes.txt" Demo.hello Demo.empty))
    = (Return f, w2)
    /\ S3File_name f = "notes.txt"
    /\ fst (temp_read (S3File_file f) w2)
       = Return (payload Demo.force_bytes Demo.hello).
Proof.
  exact (save_open_same_key Demo.settings Demo.guess_type Demo.repr
           Demo.force_text Demo.force_bytes "/notes.txt" "notes.txt" Demo.hello
           Demo.empty ltac:(vm_compute; discriminate) eq_refl eq_refl).
Defined.

(** X7 at work. *)
Lemma delete_removes_only_its_key_witness :
  no_fault 1 (faults Demo.stocked) = true
  /\ objects (snd (remove "a.txt" Demo.stocked)) !! "a.txt" = None
  /\ objects (snd (remove "missing.txt" Demo.stocked)) = Demo.two_keys.
Proof.
  split; [reflexivity |]. split.
  - exact (proj1 (proj2 (delete_removes_only_its_key Demo.settings Demo.repr
                           Demo.force_text "a.txt" Demo.stocked
                           ltac:(vm_compute; discriminate) eq_refl))).
  - exact (proj2 (proj2 (proj2 (delete_removes_only_its_key Demo.settings
                                  Demo.repr Demo.force_text "missing.txt"
                                  Demo.stocked
                                  ltac:(vm_compute; discriminate) eq_refl)))
             eq_refl).
Defined.

(** X8 at work: deleted as [/a.txt], asked for as [a.txt]. *)
Lemma deleted_is_gone_witness :
  fst (open "a.txt" "rb" (snd (remove "/a.txt" Demo.stocked)))
  = Raise (S3Error (error_message Demo.repr Demo.force_text "a.txt"
                      (S3.NoSuchKey "GetObject"))).
Proof.
  exact (proj1 (deleted_is_gone Demo.settings Demo.repr Demo.force_text
                  "/a.txt" "a.txt" Demo.stocked
                  ltac:(vm_compute; discriminate) eq_refl eq_refl)).
Defined.

(** X9 at work: five bytes of text. *)
Lemma size_after_save_witness :
  fst (length_of "notes.txt" (snd (save "notes.txt" Demo.hello Demo.empty)))
  = Return (length (payload Demo.force_bytes Demo.hello)).
Proof.
  exact (size_after_save Demo.settings Demo.guess_type Demo.repr Demo.force_text
           Demo.force_bytes "notes.txt" "notes.txt" Demo.hello Demo.empty
           ltac:(vm_compute; discriminate) eq_refl eq_refl).
Defined.

(** X10 at work. *)
Lemma metadata_of_missing_key_witness :
  objects Demo.stocked !! "missing.txt" = None
  /\ fst (length_of "missing.txt" Demo.stocked)
     = Raise (S3Error ("S3Storage error at 'missing.txt': "
                       +:+ Demo.force_text (S3.NotFound "HeadObject"))).
Proof.
  split; [reflexivity |].
  exact (proj1 (proj2 (metadata_of_missing_key Demo.settings Demo.repr
                         Demo.force_text "missing.txt" Demo.stocked
                         ltac:(vm_compute; discriminate) eq_refl eq_refl))).
Defined.

(** X11 at work: a delete the store refuses, one behind a connection
    that is down, and one of the separator alone. *)
Lemma store_failure_is_S3Error_witness :
  fst (remove "a.txt" (Demo.failing (Demo.ServiceUnavailable "DeleteObject")))
  = Raise (S3Error ("S3Storage error at 'a.txt': "
                    +:+ Demo.force_text (Demo.ServiceUnavailable "DeleteObject")))
  /\ fst (remove "a.txt" Demo.unreachable)
     = Raise (BotoCoreError "Could not connect to the endpoint URL")
  /\ fst (remove "/" Demo.stocked) = Raise S3.invalid_key.
Proof.
  split; [| split].
  - exact (proj1 (proj2 (proj2
             (proj1 (store_failure_is_S3Error Demo.settings Demo.repr
                       Demo.force_text "a.txt"
                       (Demo.failing (Demo.ServiceUnavailable "DeleteObject")))
                (Demo.ServiceUnavailable "DeleteObject") []
                ltac:(vm_compute; discriminate) eq_refl)))).
  - exact (proj1 (proj2 (proj2
             (proj1 (proj2 (store_failure_is_S3Error Demo.settings Demo.repr
                              Demo.force_text "a.txt" Demo.unreachable))
                "Could not connect to the endpoint URL" [None]
                ltac:(vm_compute; discriminate) eq_refl)))).
  - exact (proj1 (proj2 (proj2
             (proj2 (proj2 (store_failure_is_S3Error Demo.settings Demo.repr
                              Demo.force_text "/" Demo.stocked))
                eq_refl)))).
Defined.

(** X13 at work: a name nobody stored, in a bucket that is not empty. *)
Lemma exists_is_bucket_not_empty_witness :
  "missing.txt" <> ""
  /\ no_fault 2 (faults Demo.stocked) = true
  /\ objects Demo.stocked !! "missing.txt" = None
  /\ fst <$> probe 2 "missing.txt" Demo.stocked = Some (Return true).
Proof.
  split; [discriminate |]. split; [reflexivity |]. split; [reflexivity |].
  exact (exists_is_bucket_not_empty Demo.settings Demo.repr Demo.force_text
           "missing.txt" Demo.stocked ltac:(discriminate) eq_refl).
Defined.

(** X14 at work: [exists] on a store that fails. *)
Lemma readers_leave_the_bucket_witness :
  probe 2 "a.txt" (Demo.failing Demo.AccessDenied)
  = Some (directory_probe Demo.settings
            (snd (stat "a.txt" (Demo.failing Demo.AccessDenied))))
  /\ objects (snd (directory_probe Demo.settings
                     (snd (stat "a.txt" (Demo.failing Demo.AccessDenied)))))
     = Demo.two_keys.
Proof.
  split; [reflexivity |].
  exact (proj2 (proj2 (proj2 (proj2 (proj2 (proj2
           (readers_leave_the_bucket Demo.settings Demo.cwd Demo.repr
              Demo.force_text 2 "a.txt" "rb" (Demo.failing Demo.AccessDenied)))))))
           _ eq_refl).
Defined.

(** X15 at work. *)
Lemma listdir_empty_bucket_witness :
  objects Demo.empty = ∅
  /\ fst (ls "uploads" Demo.empty) = Return ([], []).
Proof.
  split; [reflexivity |].
  now rewrite (listdir_empty_bucket Demo.settings Demo.cwd "uploads" Demo.empty
                 eq_refl eq_refl).
Defined.

(** X16 at work: [c.txt] below [b]. *)
Lemma listdir_complete_witness :
  posixpath.isabs Demo.cwd = true
  /\ is_Some (objects Demo.stocked !! (listdir_prefix "b" +:+ "c.txt"))
  /\ fst (ls "b" Demo.stocked) = Return ([], ["c.txt"])
  /\ In "c.txt" ["c.txt"].
Proof.
  destruct (listdir_complete Demo.settings Demo.cwd "b" Demo.stocked [] ["c.txt"]
              eq_refl eq_refl eq_refl eq_refl) as (Hr & Hf & _).
  assert (Ho : is_Some (objects Demo.stocked !! (listdir_prefix "b" +:+ "c.txt")))
    by (eexists; reflexivity).
  split; [reflexivity |]. split; [exact Ho |]. split; [exact Hr |].
  exact (Hf "c.txt" eq_refl Ho).
Defined.

(** X17 at work: the file [a.txt] of the root is a stored key. *)
Lemma listdir_sound_witness :
  fst (ls "." Demo.stocked) = Return (["b"], ["a.txt"])
  /\ exists key, is_Some (objects Demo.stocked !! key)
                 /\ Py.startswith key "" = true
                 /\ posixpath.relpath Demo.cwd key "" = Some "a.txt".
Proof.
  destruct (listdir_sound Demo.settings Demo.cwd "." Demo.stocked ["b"] ["a.txt"]
              eq_refl eq_refl eq_refl) as (Hr & Hf & _).
  split; [exact Hr |]. apply (Hf "a.txt"). left. reflexivity.
Defined.

(** X18 at work: the placeholder [b/]. *)
Lemma listdir_lists_placeholder_witness :
  is_Some (objects Demo.with_placeholder !! listdir_prefix "b")
  /\ fst (ls "b" Demo.with_placeholder) = Return ([], ["."; "c.txt"])
  /\ In "." ["."; "c.txt"].
Proof.
  assert (Ho : is_Some (objects Demo.with_placeholder !! listdir_prefix "b"))
    by (eexists; reflexivity).
  split; [exact Ho |].
  exact (listdir_lists_placeholder Demo.settings Demo.cwd "b"
           Demo.with_placeholder [] ["."; "c.txt"] eq_refl eq_refl eq_refl Ho).
Defined.

(** X19 at work: one closed file after a text is saved. *)
Lemma save_temporary_files_witness :
  temp_files (snd (save "notes.txt" Demo.hello Demo.empty))
  = [{| buffer := Demo.force_bytes "hello"; position := 5; closed := true |}].
Proof.
  exact (save_temporary_files Demo.settings Demo.guess_type Demo.repr
           Demo.force_text Demo.force_bytes "notes.txt" Demo.hello Demo.empty
           ltac:(vm_compute; discriminate) eq_refl).
Defined.

(** X20 at work: the file that was there stays at handle 0, the new one
    is handle 1. *)
Lemma open_hands_out_fresh_file_witness :
  temp_files (snd (open "a.txt" "rb" (Demo.with_file false))) !! 0
  = Some {| buffer := Demo.force_bytes "stale"; position := 3; closed := false |}
  /\ S3File_file {| S3File_file := 1; S3File_name := "a.txt" |}
     = length (temp_files (Demo.with_file false)).
Proof.
  destruct (open_hands_out_fresh_file Demo.settings Demo.repr Demo.force_text
              "a.txt" "rb" (Demo.with_file false)) as [Hold Hnew].
  split.
  - exact (Hold 0 _ eq_refl).
  - exact (proj1 (Hnew {| S3File_file := 1; S3File_name := "a.txt" |} eq_refl)).
Defined.

(** X21 at work: an open file is rewound even for mode ["wb"]; a closed
    one is fetched again. *)
Lemma S3File_open_reopens_witness :
  fst (reopen Demo.handle "wb" (Demo.with_file false)) = Return Demo.handle
  /\ temp_closed 0 (Demo.with_file true) = true
  /\ exists w',
       reopen Demo.handle "rb" (Demo.with_file true)
       = (Return {| S3File_file := 1; S3File_name := "a.txt" |}, w')
       /\ temp_files w'
          = temp_files (Demo.with_file true)
            ++ [{| buffer := Demo.force_bytes "alpha"; position := 0;
                   closed := false |}].
Proof.
  destruct (S3File_open_reopens Demo.settings Demo.repr Demo.force_text
              Demo.handle) as (Hopen & _ & Hclosed & _).
  split.
  - now rewrite (Hopen "wb" (Demo.with_file false) _ eq_refl eq_refl).
  - split; [reflexivity |].
    destruct (Hclosed (Demo.with_file true) (Demo.obj "alpha")
                eq_refl ltac:(vm_compute; discriminate) eq_refl eq_refl)
      as (w' & E & Ht & _).
    exists w'. split; [exact E | exact Ht].
Defined.

(** X22 at work: [notes.txt] saved into the bucket of two keys. *)
Lemma listdir_after_save_witness :
  plain "notes.txt" = true
  /\ fst (ls "." (snd (save "notes.txt" Demo.hello Demo.stocked)))
     = Return (["b"], ["a.txt"; "notes.txt"])
  /\ In "notes.txt" ["a.txt"; "notes.txt"].
Proof.
  destruct (listdir_after_save Demo.settings Demo.cwd Demo.guess_type Demo.repr
              Demo.force_text Demo.force_bytes Demo.hello Demo.stocked
              ["b"] ["a.txt"; "notes.txt"] "notes.txt"
              eq_refl eq_refl eq_refl eq_refl) as (Hr & Hf & _).
  split; [reflexivity |]. split; [exact Hr | exact (Hf eq_refl)].
Defined.
